(** * Olm: inbound Megolm group sessions and pairwise sessions

    A shallow embedding of [src/inbound_group_session.c] and
    [src/session.cpp], with the declarations of [include/olm/crypto.hh].

    Conventions.
    - A byte buffer together with its length is a [list byte].
    - A [uint32_t] is a [Z]; the unsigned subtraction of the C code is
      written out with its wrap-around ([u32_sub]).
    - A function returning [size_t] with the sentinel [(size_t)-1] returns an
      [option]: [None] is the sentinel.
    - A pointer that may be null, with its length field, is an
      [option bytes].
    - Functions that the two files call but that live in other translation
      units (base64, message codec, cipher, Megolm advance, Curve25519,
      SHA-256, the ratchet) are the fields of type classes: every theorem
      holds for whatever implementation is plugged in. *)

From Stdlib Require Import ZArith List Bool Lia.
From Stdlib.Strings Require Import Byte.
From Stdlib.Strings Require String.
Import ListNotations.

Set Implicit Arguments.

Definition bytes := list byte.

(** [(size_t)-1] is [None]. *)
Definition size_t := option nat.

(** Byte-wise comparison of two buffers, [0 == memcmp(a, b, n)] once both
    have been cut to [n] bytes. *)
Fixpoint bytes_eqb (a b : bytes) : bool :=
  match a, b with
  | [], [] => true
  | x :: a', y :: b' => Byte.eqb x y && bytes_eqb a' b'
  | _, _ => false
  end.

Definition memcmp_eq (a b : bytes) (n : nat) : bool :=
  bytes_eqb (firstn n a) (firstn n b).

(** Unsigned 32-bit subtraction. *)
Definition u32_sub (a b : Z) : Z := ((a - b) mod 2 ^ 32)%Z.

(** ** olm/error.h *)

(** Modelled from the spec: the error enumeration of [olm/error.h], which is
    not among the sources; the kinds are those of the error taxonomy. *)
Inductive OlmErrorCode : Set :=
| OLM_SUCCESS
| OLM_NOT_ENOUGH_RANDOM
| OLM_OUTPUT_BUFFER_TOO_SMALL
| OLM_BAD_MESSAGE_VERSION
| OLM_BAD_MESSAGE_FORMAT
| OLM_BAD_MESSAGE_MAC
| OLM_BAD_MESSAGE_KEY_ID
| OLM_INVALID_BASE64
| OLM_BAD_ACCOUNT_KEY
| OLM_UNKNOWN_PICKLE_VERSION
| OLM_CORRUPTED_PICKLE
| OLM_BAD_SESSION_KEY
| OLM_UNKNOWN_MESSAGE_INDEX.

(** * inbound_group_session.c *)

Module InboundGroupSession.

Definition OLM_PROTOCOL_VERSION : Z := 3.
Definition MEGOLM_RATCHET_LENGTH : nat := 128.

(** [struct Megolm] of [olm/megolm.h]: four 32-byte parts and a counter. *)
Record Megolm : Set := {
  data : bytes;
  counter : Z
}.

Record OlmInboundGroupSession : Set := {
  (** our earliest known ratchet value *)
  initial_ratchet : Megolm;
  (** The most recent ratchet value *)
  latest_ratchet : Megolm;
  last_error : OlmErrorCode
}.

Definition set_last_error (e : OlmErrorCode) (s : OlmInboundGroupSession) :=
  {| initial_ratchet := initial_ratchet s;
     latest_ratchet := latest_ratchet s;
     last_error := e |}.

Definition set_initial_ratchet (m : Megolm) (s : OlmInboundGroupSession) :=
  {| initial_ratchet := m;
     latest_ratchet := latest_ratchet s;
     last_error := last_error s |}.

Definition set_latest_ratchet (m : Megolm) (s : OlmInboundGroupSession) :=
  {| initial_ratchet := initial_ratchet s;
     latest_ratchet := m;
     last_error := last_error s |}.

(** [struct _OlmDecodeGroupMessageResults] of [olm/message.h], with the
    fields that [_decrypt] reads. *)
Record _OlmDecodeGroupMessageResults : Set := {
  version : Z;
  session_id : option bytes;
  has_message_index : bool;
  message_index : Z;
  ciphertext : option bytes
}.

(** [struct _olm_cipher_ops]: the operations reached through
    [megolm_cipher->ops]. [decrypt] takes the key, the whole input (over
    which the MAC is checked), the ciphertext inside it and the capacity of
    the plaintext buffer. *)
Class olm_cipher : Type := {
  mac_length : nat;
  decrypt_max_plaintext_length : nat -> nat;
  decrypt : bytes -> bytes -> bytes -> nat -> option bytes
}.

(** The other translation units. [_olm_decode_base64] gives its return value
    and the bytes it wrote to its output. *)
Class externals : Type := {
  _olm_decode_base64_length : nat -> size_t;
  _olm_decode_base64 : bytes -> size_t * bytes;
  _olm_decode_group_message : bytes -> nat -> _OlmDecodeGroupMessageResults;
  megolm_advance_to : Megolm -> Z -> Megolm;
  megolm_cipher : olm_cipher
}.

(** Modelled from the spec: [megolm_init] of [megolm.c], which is not among
    the sources: the data is the 128-byte seed, the counter is stored. *)
Definition megolm_init (random_data : bytes) (counter : Z) : Megolm :=
  {| data := firstn MEGOLM_RATCHET_LENGTH random_data; counter := counter |}.

(** [megolm_get_data] *)
Definition megolm_get_data (m : Megolm) : bytes := data m.

Section Code.

Context {X : externals}.

Definition olm_init_inbound_group_session
    (session : OlmInboundGroupSession) (message_index : Z)
    (session_key : bytes) : OlmInboundGroupSession * size_t :=
  let raw_length := _olm_decode_base64_length (length session_key) in
  match raw_length with
  | None => (set_last_error OLM_INVALID_BASE64 session, None)
  | Some raw_length =>
    if negb (Nat.eqb raw_length MEGOLM_RATCHET_LENGTH) then
      (set_last_error OLM_BAD_SESSION_KEY session, None)
    else
      let key_buf := snd (_olm_decode_base64 session_key) in
      let session := set_initial_ratchet (megolm_init key_buf message_index) session in
      let session := set_latest_ratchet (megolm_init key_buf message_index) session in
      (session, Some 0)
  end.

(** The ratchet [_decrypt] works on: [&session->latest_ratchet], or the
    local [tmp_megolm] holding a copy of the initial ratchet. *)
Inductive megolm_ptr : Set :=
| ptr_latest_ratchet
| ptr_tmp_megolm (tmp_megolm : Megolm).

(** "pick a megolm instance to use": [None] when the counter is before the
    initial ratchet. *)
Definition pick_megolm (session : OlmInboundGroupSession) (message_index : Z)
  : option megolm_ptr :=
  if (u32_sub message_index (counter (latest_ratchet session)) <? 2 ^ 31)%Z then
    Some ptr_latest_ratchet
  else if (u32_sub message_index (counter (initial_ratchet session)) >=? 2 ^ 31)%Z then
    None
  else
    Some (ptr_tmp_megolm (initial_ratchet session)).

(** [megolm_advance_to(megolm, index)] through the pointer: the session and
    the ratchet value the pointer designates afterwards. *)
Definition advance_through (session : OlmInboundGroupSession)
    (megolm : megolm_ptr) (index : Z) : OlmInboundGroupSession * Megolm :=
  match megolm with
  | ptr_latest_ratchet =>
    let m := megolm_advance_to (latest_ratchet session) index in
    (set_latest_ratchet m session, m)
  | ptr_tmp_megolm tmp_megolm =>
    (session, megolm_advance_to tmp_megolm index)
  end.

(** decrypt an un-base64-ed message *)
Definition _decrypt (session : OlmInboundGroupSession) (message : bytes)
    (max_plaintext_length : nat) : OlmInboundGroupSession * option bytes :=
  let decoded_results :=
    _olm_decode_group_message message (mac_length (olm_cipher := megolm_cipher)) in
  if negb (version decoded_results =? OLM_PROTOCOL_VERSION)%Z then
    (set_last_error OLM_BAD_MESSAGE_VERSION session, None)
  else
    match has_message_index decoded_results,
          session_id decoded_results,
          ciphertext decoded_results with
    | true, Some _, Some ciphertext =>
      let max_length :=
        decrypt_max_plaintext_length (olm_cipher := megolm_cipher) (length ciphertext) in
      if Nat.ltb max_plaintext_length max_length then
        (set_last_error OLM_OUTPUT_BUFFER_TOO_SMALL session, None)
      else
        match pick_megolm session (message_index decoded_results) with
        | None => (set_last_error OLM_UNKNOWN_MESSAGE_INDEX session, None)
        | Some megolm =>
          let '(session, m) :=
            advance_through session megolm (message_index decoded_results) in
          (* now try checking the mac, and decrypting *)
          let r := decrypt (olm_cipher := megolm_cipher)
                     (megolm_get_data m) message ciphertext max_plaintext_length in
          match r with
          | None => (set_last_error OLM_BAD_MESSAGE_MAC session, None)
          | Some plaintext => (session, Some plaintext)
          end
        end
    | _, _, _ => (set_last_error OLM_BAD_MESSAGE_FORMAT session, None)
    end.

Definition olm_group_decrypt (session : OlmInboundGroupSession)
    (message : bytes) (max_plaintext_length : nat)
  : OlmInboundGroupSession * option bytes :=
  let '(raw_message_length, message) := _olm_decode_base64 message in
  match raw_message_length with
  | None => (set_last_error OLM_INVALID_BASE64 session, None)
  | Some raw_message_length =>
    _decrypt session (firstn raw_message_length message) max_plaintext_length
  end.

(** *** Vocabulary of the statements *)

(** What [_decrypt] requires of a decoded message before it looks at the
    ratchets: the protocol version, the three fields, and room for the
    plaintext. *)
Definition well_formed (d : _OlmDecodeGroupMessageResults) (ct : bytes)
    (max_plaintext_length : nat) : Prop :=
  version d = OLM_PROTOCOL_VERSION
  /\ has_message_index d = true
  /\ session_id d <> None
  /\ ciphertext d = Some ct
  /\ decrypt_max_plaintext_length (olm_cipher := megolm_cipher) (length ct)
     <= max_plaintext_length.

(** The ratchet value whose data keys the cipher, when there is one. *)
Definition keying_ratchet (s : OlmInboundGroupSession) (c : Z) : option Megolm :=
  option_map (fun p => snd (advance_through s p c)) (pick_megolm s c).

End Code.

(** Modelled from the spec: the version byte an exported session key starts
    with. The code under [src/] has no such constant. *)
Definition SESSION_KEY_VERSION : byte := x02.

(** ** The length query and the pickling functions *)

Definition PICKLE_VERSION : Z := 1.

(** The functions of [olm/pickle.h], [olm/pickle_encoding.h] and
    [olm/megolm.h] that the pickling functions call. A position in a buffer
    is the list of the bytes from it to the end of the buffer: a pickler
    gives the bytes it writes at the position, an unpickler the value it
    read and the position it returns. [megolm_unpickle] is handed the ratchet
    it writes to. [_olm_enc_output] is handed the raw bytes written in the
    buffer and their announced length, and gives its result and the buffer;
    [_olm_enc_input] is handed the key, the buffer and the error code it may
    overwrite, and gives its result, the buffer and the error code. *)
Class pickle_externals : Type := {
  _olm_pickle_uint32_length : Z -> nat;
  _olm_pickle_uint32 : Z -> bytes;
  _olm_unpickle_uint32 : bytes -> Z * bytes;
  megolm_pickle_length : Megolm -> nat;
  megolm_pickle : Megolm -> bytes;
  megolm_unpickle : Megolm -> bytes -> Megolm * bytes;
  _olm_enc_output_length : nat -> nat;
  _olm_enc_output : bytes -> bytes -> nat -> size_t * bytes;
  _olm_enc_input : bytes -> bytes -> OlmErrorCode -> size_t * bytes * OlmErrorCode
}.

Section Rest.

Context {X : externals} {P : pickle_externals}.

(** get the max plaintext length in an un-base64-ed message *)
Definition _decrypt_max_plaintext_length (session : OlmInboundGroupSession)
    (message : bytes) : OlmInboundGroupSession * size_t :=
  let decoded_results :=
    _olm_decode_group_message message (mac_length (olm_cipher := megolm_cipher)) in
  if negb (version decoded_results =? OLM_PROTOCOL_VERSION)%Z then
    (set_last_error OLM_BAD_MESSAGE_VERSION session, None)
  else
    match ciphertext decoded_results with
    | None => (set_last_error OLM_BAD_MESSAGE_FORMAT session, None)
    | Some ciphertext =>
      (session,
       Some (decrypt_max_plaintext_length (olm_cipher := megolm_cipher)
               (length ciphertext)))
    end.

Definition olm_group_decrypt_max_plaintext_length
    (session : OlmInboundGroupSession) (message : bytes)
  : OlmInboundGroupSession * size_t :=
  let '(raw_length, message) := _olm_decode_base64 message in
  match raw_length with
  | None => (set_last_error OLM_INVALID_BASE64 session, None)
  | Some raw_length =>
    _decrypt_max_plaintext_length session (firstn raw_length message)
  end.

Definition raw_pickle_length (session : OlmInboundGroupSession) : nat :=
  let length := 0 in
  let length := length + _olm_pickle_uint32_length PICKLE_VERSION in
  let length := length + megolm_pickle_length (initial_ratchet session) in
  let length := length + megolm_pickle_length (latest_ratchet session) in
  length.

Definition olm_pickle_inbound_group_session_length
    (session : OlmInboundGroupSession) : nat :=
  _olm_enc_output_length (raw_pickle_length session).

(** The session, the result, and the bytes of [pickled]. *)
Definition olm_pickle_inbound_group_session (session : OlmInboundGroupSession)
    (key : bytes) (pickled_length : nat)
  : OlmInboundGroupSession * size_t * bytes :=
  let raw_length := raw_pickle_length session in
  if Nat.ltb pickled_length (_olm_enc_output_length raw_length) then
    (set_last_error OLM_OUTPUT_BUFFER_TOO_SMALL session, None, [])
  else
    let pos := [] in
    let pos := pos ++ _olm_pickle_uint32 PICKLE_VERSION in
    let pos := pos ++ megolm_pickle (initial_ratchet session) in
    let pos := pos ++ megolm_pickle (latest_ratchet session) in
    let '(result, pickled) := _olm_enc_output key pos raw_length in
    (session, result, pickled).

Definition olm_unpickle_inbound_group_session
    (session : OlmInboundGroupSession) (key pickled : bytes)
  : OlmInboundGroupSession * size_t :=
  let pickled_length := length pickled in
  let '(raw_length, pickled, e) := _olm_enc_input key pickled (last_error session) in
  let session := set_last_error e session in
  match raw_length with
  | None => (session, None)
  | Some raw_length =>
    let pos := firstn raw_length pickled in
    let '(pickle_version, pos) := _olm_unpickle_uint32 pos in
    if negb (pickle_version =? PICKLE_VERSION)%Z then
      (set_last_error OLM_UNKNOWN_PICKLE_VERSION session, None)
    else
      let '(m, pos) := megolm_unpickle (initial_ratchet session) pos in
      let session := set_initial_ratchet m session in
      let '(m, pos) := megolm_unpickle (latest_ratchet session) pos in
      let session := set_latest_ratchet m session in
      match pos with
      | [] => (session, Some pickled_length)
      | _ :: _ =>
        (* We had the wrong number of bytes in the input. *)
        (set_last_error OLM_CORRUPTED_PICKLE session, None)
      end
  end.

(** The session after decrypting, in turn, each message of a list, given
    with the capacity of its plaintext buffer. *)
Fixpoint decrypt_all (messages : list (bytes * nat))
    (session : OlmInboundGroupSession) : OlmInboundGroupSession :=
  match messages with
  | [] => session
  | (message, max_plaintext_length) :: messages =>
    decrypt_all messages
      (fst (olm_group_decrypt session message max_plaintext_length))
  end.

End Rest.

End InboundGroupSession.

(** * crypto.hh and session.cpp *)

Module olm.

(** ** crypto.hh *)

Definition KEY_LENGTH : nat := 32.
Definition SIGNATURE_LENGTH : nat := 64.
Definition IV_LENGTH : nat := 16.
Definition SHA256_OUTPUT_LENGTH : nat := 32.

Record Curve25519PublicKey : Set := {
  public_key : bytes
}.

(** [struct Curve25519KeyPair : public Curve25519PublicKey] *)
Record Curve25519KeyPair : Set := {
  public_part :> Curve25519PublicKey;
  private_key : bytes
}.

(** ** Declarations of the headers that are not among the sources *)

(** Modelled from the spec: [olm::ErrorCode] of [olm/error.hh]. *)
Inductive ErrorCode : Set :=
| SUCCESS
| NOT_ENOUGH_RANDOM
| OUTPUT_BUFFER_TOO_SMALL
| BAD_MESSAGE_VERSION
| BAD_MESSAGE_FORMAT
| BAD_MESSAGE_MAC
| BAD_MESSAGE_KEY_ID
| INVALID_BASE64
| BAD_ACCOUNT_KEY
| UNKNOWN_PICKLE_VERSION
| CORRUPTED_PICKLE.

Inductive MessageType : Set :=
| PRE_KEY
| MESSAGE.

(** [olm::PreKeyMessageReader] of [olm/message.hh]: each field is a pointer
    into the input with its length, null when the field is absent. *)
Record PreKeyMessageReader : Set := {
  identity_key : option bytes;
  base_key : option bytes;
  one_time_key : option bytes;
  message : option bytes
}.

(** [olm::MessageReader]: the field [new_inbound_session] reads. *)
Record MessageReader : Set := {
  ratchet_key : option bytes
}.

(** Modelled from the spec: the one-time key record and the account of
    [olm/account.hh], which are not among the sources: an account owns its
    identity key pair and an ordered sequence of one-time keys. *)
Record OneTimeKey : Set := {
  id : Z;
  published : bool;
  key : Curve25519KeyPair
}.

Record Account : Set := {
  identity_keys_curve25519_key : Curve25519KeyPair;
  one_time_keys : list OneTimeKey
}.

(** Modelled from the spec: [Account::lookup_key], a one-time key is looked
    up by its public-key bytes; null when there is none. *)
Definition lookup_key (local_account : Account) (k : Curve25519PublicKey)
  : option OneTimeKey :=
  find (fun otk => bytes_eqb (public_key (key otk)) (public_key k))
       (one_time_keys local_account).

(** [olm::Ratchet] of [olm/ratchet.hh]: the session reads and resets its
    public [last_error] field, so that field is explicit; the rest of its
    state is [core]. *)
Record Ratchet (ratchet_core : Type) : Type := {
  core : ratchet_core;
  ratchet_last_error : ErrorCode
}.

(** The functions of the other translation units. A method of the ratchet
    takes the ratchet and gives it back. [encode_one_time_key_message]
    stands for the writer: the bytes of the envelope once its four fields
    have been stored. *)
Class externals : Type := {
  ratchet_core : Type;
  curve25519_generate_key : bytes -> Curve25519KeyPair;
  curve25519_shared_secret : Curve25519KeyPair -> Curve25519PublicKey -> bytes;
  sha256 : bytes -> bytes;
  decode_one_time_key_message : bytes -> PreKeyMessageReader;
  decode_message : bytes -> nat -> MessageReader;
  encode_one_time_key_message_length : nat -> nat -> nat -> nat -> nat;
  encode_one_time_key_message : Z -> bytes -> bytes -> bytes -> bytes -> bytes;
  ratchet_cipher_mac_length : Ratchet ratchet_core -> nat;
  initialise_as_alice :
    Ratchet ratchet_core -> bytes -> Curve25519KeyPair -> Ratchet ratchet_core;
  initialise_as_bob :
    Ratchet ratchet_core -> bytes -> Curve25519PublicKey -> Ratchet ratchet_core;
  ratchet_encrypt_output_length : Ratchet ratchet_core -> nat -> nat;
  ratchet_encrypt_random_length : Ratchet ratchet_core -> nat;
  ratchet_encrypt :
    Ratchet ratchet_core -> bytes -> bytes -> nat ->
    Ratchet ratchet_core * option bytes;
  ratchet_decrypt_max_plaintext_length :
    Ratchet ratchet_core -> bytes -> Ratchet ratchet_core * size_t;
  ratchet_decrypt :
    Ratchet ratchet_core -> bytes -> nat ->
    Ratchet ratchet_core * option bytes
}.

Section Code.

Context {X : externals}.

Record Session : Type := {
  ratchet : Ratchet ratchet_core;
  last_error : ErrorCode;
  received_message : bool;
  alice_identity_key : Curve25519PublicKey;
  alice_base_key : Curve25519PublicKey;
  bob_one_time_key : Curve25519PublicKey
}.

Definition with_ratchet (r : Ratchet ratchet_core) (s : Session) : Session :=
  {| ratchet := r; last_error := last_error s;
     received_message := received_message s;
     alice_identity_key := alice_identity_key s;
     alice_base_key := alice_base_key s;
     bob_one_time_key := bob_one_time_key s |}.

Definition with_last_error (e : ErrorCode) (s : Session) : Session :=
  {| ratchet := ratchet s; last_error := e;
     received_message := received_message s;
     alice_identity_key := alice_identity_key s;
     alice_base_key := alice_base_key s;
     bob_one_time_key := bob_one_time_key s |}.

Definition with_received_message (b : bool) (s : Session) : Session :=
  {| ratchet := ratchet s; last_error := last_error s;
     received_message := b;
     alice_identity_key := alice_identity_key s;
     alice_base_key := alice_base_key s;
     bob_one_time_key := bob_one_time_key s |}.

Definition with_keys (ia ea eb : Curve25519PublicKey) (s : Session) : Session :=
  {| ratchet := ratchet s; last_error := last_error s;
     received_message := received_message s;
     alice_identity_key := ia;
     alice_base_key := ea;
     bob_one_time_key := eb |}.

Definition with_ratchet_last_error (e : ErrorCode) (r : Ratchet ratchet_core)
  : Ratchet ratchet_core :=
  {| core := core r; ratchet_last_error := e |}.

(** The handshake triple a session stores. *)
Definition triple (s : Session) : bytes * bytes * bytes :=
  (public_key (alice_identity_key s),
   public_key (alice_base_key s),
   public_key (bob_one_time_key s)).

Definition PROTOCOL_VERSION : Z := 3.

(** [Session::Session()]: the ratchet is constructed, the two flags are
    set; the key arrays are not initialised and hold what the memory held. *)
Definition Session_ctor (fresh : ratchet_core) (ia ea eb : Curve25519PublicKey)
  : Session :=
  {| ratchet := {| core := fresh; ratchet_last_error := SUCCESS |};
     last_error := SUCCESS;
     received_message := false;
     alice_identity_key := ia;
     alice_base_key := ea;
     bob_one_time_key := eb |}.

Definition new_outbound_session_random_length : nat := KEY_LENGTH * 2.

Definition new_outbound_session (local_account : Account)
    (identity_key one_time_key : Curve25519PublicKey) (random : bytes)
    (s : Session) : Session * size_t :=
  if Nat.ltb (length random) new_outbound_session_random_length then
    (with_last_error NOT_ENOUGH_RANDOM s, None)
  else
    let base_key := curve25519_generate_key (firstn KEY_LENGTH random) in
    let ratchet_key :=
      curve25519_generate_key (firstn KEY_LENGTH (skipn KEY_LENGTH random)) in
    let alice_identity_key_pair := identity_keys_curve25519_key local_account in
    let s := with_received_message false s in
    let s := with_keys alice_identity_key_pair base_key one_time_key s in
    (* secret is filled from pos, pos advancing by KEY_LENGTH *)
    let secret :=
      curve25519_shared_secret alice_identity_key_pair one_time_key
      ++ curve25519_shared_secret base_key identity_key
      ++ curve25519_shared_secret base_key one_time_key in
    let s := with_ratchet (initialise_as_alice (ratchet s) secret ratchet_key) s in
    (s, Some 0).

Definition has_length (field : option bytes) (n : nat) : bool :=
  match field with
  | Some b => Nat.eqb (length b) n
  | None => false
  end.

(** A pointer used as a condition. *)
Definition non_null {A : Type} (pointer : option A) : bool :=
  match pointer with
  | Some _ => true
  | None => false
  end.

Definition check_message_fields (reader : PreKeyMessageReader)
    (have_their_identity_key : bool) : bool :=
  let ok := true in
  let ok := ok && (have_their_identity_key || non_null (identity_key reader)) in
  let ok :=
    if non_null (identity_key reader) then
      ok && has_length (identity_key reader) KEY_LENGTH
    else ok in
  let ok := ok && non_null (message reader) in
  let ok := ok && non_null (base_key reader) in
  let ok := ok && has_length (base_key reader) KEY_LENGTH in
  let ok := ok && non_null (one_time_key reader) in
  let ok := ok && has_length (one_time_key reader) KEY_LENGTH in
  ok.

(** [olm::load_array(destination, source)] copies [KEY_LENGTH] bytes from
    the source pointer. *)
Definition load_array (source : bytes) : Curve25519PublicKey :=
  {| public_key := firstn KEY_LENGTH source |}.

(** The outcome of [new_inbound_session]. Its first [load_array] reads
    through [reader.identity_key] whether or not that pointer is null:
    [check_message_fields] lets a null one through when the caller supplies
    the expected identity key. That read is undefined behaviour. *)
Inductive inbound_outcome : Type :=
| returns (s : Session) (result : size_t)
| null_pointer_read.

Definition new_inbound_session (local_account : Account)
    (their_identity_key : option Curve25519PublicKey)
    (one_time_key_message : bytes) (s : Session) : inbound_outcome :=
  let reader := decode_one_time_key_message one_time_key_message in
  if negb (check_message_fields reader (non_null their_identity_key)) then
    returns (with_last_error BAD_MESSAGE_FORMAT s) None
  else
    let same :=
      match identity_key reader, their_identity_key with
      | Some reader_identity_key, Some their_identity_key =>
        memcmp_eq (public_key their_identity_key) reader_identity_key KEY_LENGTH
      | _, _ => true
      end in
    if negb same then
      returns (with_last_error BAD_MESSAGE_KEY_ID s) None
    else
      match identity_key reader, base_key reader, one_time_key reader, message reader with
      | Some reader_identity_key, Some reader_base_key,
        Some reader_one_time_key, Some reader_message =>
        let s :=
          with_keys (load_array reader_identity_key) (load_array reader_base_key)
                    (load_array reader_one_time_key) s in
        let message_reader :=
          decode_message reader_message (ratchet_cipher_mac_length (ratchet s)) in
        match ratchet_key message_reader with
        | None => returns (with_last_error BAD_MESSAGE_FORMAT s) None
        | Some reader_ratchet_key =>
          if negb (Nat.eqb (length reader_ratchet_key) KEY_LENGTH) then
            returns (with_last_error BAD_MESSAGE_FORMAT s) None
          else
            let ratchet_key := load_array reader_ratchet_key in
            match lookup_key local_account (bob_one_time_key s) with
            | None => returns (with_last_error BAD_MESSAGE_KEY_ID s) None
            | Some our_one_time_key =>
              let bob_identity_key := identity_keys_curve25519_key local_account in
              let bob_one_time_key := key our_one_time_key in
              let secret :=
                curve25519_shared_secret bob_one_time_key (alice_identity_key s)
                ++ curve25519_shared_secret bob_identity_key (alice_base_key s)
                ++ curve25519_shared_secret bob_one_time_key (alice_base_key s) in
              let s := with_ratchet (initialise_as_bob (ratchet s) secret ratchet_key) s in
              returns s (Some 0)
            end
        end
      | _, _, _, _ => null_pointer_read
      end.

Definition session_id_length : nat := SHA256_OUTPUT_LENGTH.

(** [olm::store_array(pos, array)] appends the array at [pos]. *)
Definition store_array (pos : bytes) (k : Curve25519PublicKey) : bytes :=
  pos ++ public_key k.

(** The result, and the bytes written to [id]. *)
Definition session_id (id_length : nat) (s : Session)
  : Session * (size_t * bytes) :=
  if Nat.ltb id_length session_id_length then
    (with_last_error OUTPUT_BUFFER_TOO_SMALL s, (None, []))
  else
    let pos := [] in
    let pos := store_array pos (alice_identity_key s) in
    let pos := store_array pos (alice_base_key s) in
    let pos := store_array pos (bob_one_time_key s) in
    let tmp := pos in
    (s, (Some session_id_length, sha256 tmp)).

Definition matches_inbound_session
    (their_identity_key : option Curve25519PublicKey)
    (one_time_key_message : bytes) (s : Session) : Session * bool :=
  let reader := decode_one_time_key_message one_time_key_message in
  if negb (check_message_fields reader (non_null their_identity_key)) then
    (s, false)
  else
    let same := true in
    let same :=
      match identity_key reader with
      | Some reader_identity_key =>
        same && memcmp_eq reader_identity_key
                          (public_key (alice_identity_key s)) KEY_LENGTH
      | None => same
      end in
    let same :=
      match their_identity_key with
      | Some their_identity_key =>
        same && memcmp_eq (public_key their_identity_key)
                          (public_key (alice_identity_key s)) KEY_LENGTH
      | None => same
      end in
    (* check_message_fields has rejected a null base_key or one_time_key *)
    let same :=
      same && match base_key reader with
              | Some reader_base_key =>
                memcmp_eq reader_base_key (public_key (alice_base_key s)) KEY_LENGTH
              | None => false
              end in
    let same :=
      same && match one_time_key reader with
              | Some reader_one_time_key =>
                memcmp_eq reader_one_time_key
                          (public_key (bob_one_time_key s)) KEY_LENGTH
              | None => false
              end in
    (s, same).

Definition encrypt_message_type (s : Session) : Session * MessageType :=
  if received_message s then (s, MESSAGE) else (s, PRE_KEY).

Definition encrypt_message_length (plaintext_length : nat) (s : Session)
  : Session * nat :=
  let message_length := ratchet_encrypt_output_length (ratchet s) plaintext_length in
  if received_message s then (s, message_length)
  else
    (s, encode_one_time_key_message_length KEY_LENGTH KEY_LENGTH KEY_LENGTH
          message_length).

Definition encrypt_random_length (s : Session) : Session * nat :=
  (s, ratchet_encrypt_random_length (ratchet s)).

(** The result of the ratchet, and the bytes of [message]: the output of
    the ratchet, inside a pre-key envelope until a message has been
    received. *)
Definition encrypt (plaintext random : bytes) (message_length : nat)
    (s : Session) : Session * option (nat * bytes) :=
  if Nat.ltb message_length (snd (encrypt_message_length (length plaintext) s)) then
    (with_last_error OUTPUT_BUFFER_TOO_SMALL s, None)
  else
    let message_body_length :=
      ratchet_encrypt_output_length (ratchet s) (length plaintext) in
    let '(r, result) :=
      ratchet_encrypt (ratchet s) plaintext random message_body_length in
    let s := with_ratchet r s in
    match result with
    | None =>
      let s := with_last_error (ratchet_last_error (ratchet s)) s in
      let s := with_ratchet (with_ratchet_last_error SUCCESS (ratchet s)) s in
      (s, None)
    | Some message_body =>
      if received_message s then
        (s, Some (length message_body, message_body))
      else
        (s, Some (length message_body,
                  encode_one_time_key_message PROTOCOL_VERSION
                    (public_key (bob_one_time_key s))
                    (public_key (alice_identity_key s))
                    (public_key (alice_base_key s))
                    message_body))
    end.

(** The body handed to the ratchet: the message itself, or the message
    embedded in the pre-key envelope; [None] when the envelope has none. *)
Definition message_body_of (message_type : MessageType) (message : bytes)
  : option bytes :=
  match message_type with
  | MESSAGE => Some message
  | PRE_KEY => olm.message (decode_one_time_key_message message)
  end.

Definition decrypt_max_plaintext_length (message_type : MessageType)
    (message : bytes) (s : Session) : Session * size_t :=
  match message_body_of message_type message with
  | None => (with_last_error BAD_MESSAGE_FORMAT s, None)
  | Some message_body =>
    let '(r, result) :=
      ratchet_decrypt_max_plaintext_length (ratchet s) message_body in
    let s := with_ratchet r s in
    match result with
    | None =>
      let s := with_last_error (ratchet_last_error (ratchet s)) s in
      let s := with_ratchet (with_ratchet_last_error SUCCESS (ratchet s)) s in
      (s, None)
    | Some n => (s, Some n)
    end
  end.

Definition decrypt (message_type : MessageType) (message : bytes)
    (max_plaintext_length : nat) (s : Session) : Session * option bytes :=
  match message_body_of message_type message with
  | None => (with_last_error BAD_MESSAGE_FORMAT s, None)
  | Some message_body =>
    let '(r, result) :=
      ratchet_decrypt (ratchet s) message_body max_plaintext_length in
    let s := with_ratchet r s in
    match result with
    | None =>
      let s := with_last_error (ratchet_last_error (ratchet s)) s in
      let s := with_ratchet (with_ratchet_last_error SUCCESS (ratchet s)) s in
      (s, None)
    | Some plaintext =>
      let s := with_received_message true s in
      (s, Some plaintext)
    end
  end.

(** *** Vocabulary of the statements *)

(** The calls a caller makes on a session once it has been created. *)
Inductive call : Type :=
| call_session_id (id_length : nat)
| call_matches_inbound_session
    (their_identity_key : option Curve25519PublicKey)
    (one_time_key_message : bytes)
| call_encrypt_message_type
| call_encrypt_message_length (plaintext_length : nat)
| call_encrypt_random_length
| call_encrypt (plaintext random : bytes) (message_length : nat)
| call_decrypt_max_plaintext_length (message_type : MessageType) (message : bytes)
| call_decrypt (message_type : MessageType) (message : bytes)
    (max_plaintext_length : nat).

(** The session after a call. *)
Definition step (c : call) (s : Session) : Session :=
  match c with
  | call_session_id id_length => fst (session_id id_length s)
  | call_matches_inbound_session their_identity_key one_time_key_message =>
    fst (matches_inbound_session their_identity_key one_time_key_message s)
  | call_encrypt_message_type => fst (encrypt_message_type s)
  | call_encrypt_message_length plaintext_length =>
    fst (encrypt_message_length plaintext_length s)
  | call_encrypt_random_length => fst (encrypt_random_length s)
  | call_encrypt plaintext random message_length =>
    fst (encrypt plaintext random message_length s)
  | call_decrypt_max_plaintext_length message_type message =>
    fst (decrypt_max_plaintext_length message_type message s)
  | call_decrypt message_type message max_plaintext_length =>
    fst (decrypt message_type message max_plaintext_length s)
  end.

(** The call is a [decrypt] that returns a plaintext. *)
Definition decrypt_succeeds (c : call) (s : Session) : bool :=
  match c with
  | call_decrypt message_type message max_plaintext_length =>
    non_null (snd (decrypt message_type message max_plaintext_length s))
  | _ => false
  end.

Fixpoint run (calls : list call) (s : Session) : Session :=
  match calls with
  | [] => s
  | c :: calls => run calls (step c s)
  end.

(** Some call of the run is a [decrypt] that returns a plaintext. *)
Fixpoint some_decrypt_succeeds (calls : list call) (s : Session) : bool :=
  match calls with
  | [] => false
  | c :: calls => decrypt_succeeds c s || some_decrypt_succeeds calls (step c s)
  end.

(** The key arrays hold [KEY_LENGTH] bytes. *)
Definition key_ok (k : Curve25519PublicKey) : Prop :=
  length (public_key k) = KEY_LENGTH.

Definition keys_ok (s : Session) : Prop :=
  key_ok (alice_identity_key s) /\ key_ok (alice_base_key s)
  /\ key_ok (bob_one_time_key s).

(** What the spec asks of [matches_inbound_session]: the envelope has its
    fields, and the identity, base and one-time keys are, byte for byte,
    those the session stores; the identity key is the one of the envelope,
    the one the caller expects, or both. *)
Definition envelope_matches (their_identity_key : option Curve25519PublicKey)
    (reader : PreKeyMessageReader) (s : Session) : Prop :=
  message reader <> None
  /\ base_key reader = Some (public_key (alice_base_key s))
  /\ one_time_key reader = Some (public_key (bob_one_time_key s))
  /\ (identity_key reader = Some (public_key (alice_identity_key s))
      \/ (identity_key reader = None /\ their_identity_key <> None))
  /\ (forall k, their_identity_key = Some k ->
                public_key k = public_key (alice_identity_key s)).

End Code.

(** ** Pickling *)

(** The overloads of [olm::pickle_length], [olm::pickle] and [olm::unpickle]
    of [olm/pickle.hh] and [olm/ratchet.hh] for the types of the fields of a
    session. A position is the list of the bytes from it to [end]. A pickler
    gives the bytes it writes; an unpickler is handed the object it writes to
    and gives that object and the position it returns. The unpickler of
    [uint32_t] is handed an uninitialised local and gives its value. *)
Class pickle_externals {X : externals} : Type := {
  pickle_length_uint32 : Z -> nat;
  pickle_uint32 : Z -> bytes;
  unpickle_uint32 : bytes -> Z * bytes;
  pickle_length_bool : bool -> nat;
  pickle_bool : bool -> bytes;
  unpickle_bool : bytes -> bool -> bool * bytes;
  pickle_length_key : Curve25519PublicKey -> nat;
  pickle_key : Curve25519PublicKey -> bytes;
  unpickle_key : bytes -> Curve25519PublicKey -> Curve25519PublicKey * bytes;
  pickle_length_ratchet : Ratchet ratchet_core -> nat;
  pickle_ratchet : Ratchet ratchet_core -> bytes;
  unpickle_ratchet :
    bytes -> Ratchet ratchet_core -> Ratchet ratchet_core * bytes
}.

Section Pickling.

Context {X : externals} {P : pickle_externals}.

Definition SESSION_PICKLE_VERSION : Z := 1.

Definition pickle_length (value : Session) : nat :=
  let length := 0 in
  let length := length + pickle_length_uint32 SESSION_PICKLE_VERSION in
  let length := length + pickle_length_bool (received_message value) in
  let length := length + pickle_length_key (alice_identity_key value) in
  let length := length + pickle_length_key (alice_base_key value) in
  let length := length + pickle_length_key (bob_one_time_key value) in
  let length := length + pickle_length_ratchet (ratchet value) in
  length.

(** The bytes from the start of the buffer, those before [pos] included. *)
Definition pickle (pos : bytes) (value : Session) : bytes :=
  let pos := pos ++ pickle_uint32 SESSION_PICKLE_VERSION in
  let pos := pos ++ pickle_bool (received_message value) in
  let pos := pos ++ pickle_key (alice_identity_key value) in
  let pos := pos ++ pickle_key (alice_base_key value) in
  let pos := pos ++ pickle_key (bob_one_time_key value) in
  let pos := pos ++ pickle_ratchet (ratchet value) in
  pos.

(** The position returned, [[]] for [end], and the session. *)
Definition unpickle (pos : bytes) (value : Session) : bytes * Session :=
  let '(pickle_version, pos) := unpickle_uint32 pos in
  if negb (pickle_version =? SESSION_PICKLE_VERSION)%Z then
    ([], with_last_error UNKNOWN_PICKLE_VERSION value)
  else
    let '(b, pos) := unpickle_bool pos (received_message value) in
    let value := with_received_message b value in
    let '(k, pos) := unpickle_key pos (alice_identity_key value) in
    let value :=
      with_keys k (alice_base_key value) (bob_one_time_key value) value in
    let '(k, pos) := unpickle_key pos (alice_base_key value) in
    let value :=
      with_keys (alice_identity_key value) k (bob_one_time_key value) value in
    let '(k, pos) := unpickle_key pos (bob_one_time_key value) in
    let value :=
      with_keys (alice_identity_key value) (alice_base_key value) k value in
    let '(r, pos) := unpickle_ratchet pos (ratchet value) in
    let value := with_ratchet r value in
    (pos, value).

End Pickling.

(** ** The ways through [new_inbound_session] *)

Section Paths.

Context {X : externals}.

(** The ways through [new_inbound_session] once the keys of the message are
    stored, by the ratchet key of the embedded message. *)
Inductive loaded_path (local_account : Account) (loaded : Session)
    : option bytes -> inbound_outcome -> Prop :=
| path_no_ratchet_key :
    loaded_path local_account loaded None
      (returns (with_last_error BAD_MESSAGE_FORMAT loaded) None)
| path_short_ratchet_key t0 :
    length t0 <> KEY_LENGTH ->
    loaded_path local_account loaded (Some t0)
      (returns (with_last_error BAD_MESSAGE_FORMAT loaded) None)
| path_unknown_key t0 :
    length t0 = KEY_LENGTH ->
    lookup_key local_account (bob_one_time_key loaded) = None ->
    loaded_path local_account loaded (Some t0)
      (returns (with_last_error BAD_MESSAGE_KEY_ID loaded) None)
| path_success t0 our :
    length t0 = KEY_LENGTH ->
    lookup_key local_account (bob_one_time_key loaded) = Some our ->
    loaded_path local_account loaded (Some t0)
      (returns
         (with_ratchet
            (initialise_as_bob (ratchet loaded)
               (curve25519_shared_secret (key our) (alice_identity_key loaded)
                ++ curve25519_shared_secret
                     (identity_keys_curve25519_key local_account)
                     (alice_base_key loaded)
                ++ curve25519_shared_secret (key our) (alice_base_key loaded))
               {| public_key := t0 |})
            loaded)
         (Some 0)).

(** The ways through [new_inbound_session], in the order of the code,
    up to the point where the keys of the message are stored. *)
Inductive inbound_path (local_account : Account)
    (their_identity_key : option Curve25519PublicKey)
    (reader : PreKeyMessageReader) (s : Session) : inbound_outcome -> Prop :=
| path_fields :
    check_message_fields reader (non_null their_identity_key) = false ->
    inbound_path local_account their_identity_key reader s
      (returns (with_last_error BAD_MESSAGE_FORMAT s) None)
| path_identity ik k :
    check_message_fields reader (non_null their_identity_key) = true ->
    identity_key reader = Some ik ->
    their_identity_key = Some k ->
    memcmp_eq (public_key k) ik KEY_LENGTH = false ->
    inbound_path local_account their_identity_key reader s
      (returns (with_last_error BAD_MESSAGE_KEY_ID s) None)
| path_null :
    check_message_fields reader (non_null their_identity_key) = true ->
    identity_key reader = None ->
    inbound_path local_account their_identity_key reader s null_pointer_read
| path_loaded ik bk otk inner outcome :
    check_message_fields reader (non_null their_identity_key) = true ->
    identity_key reader = Some ik ->
    base_key reader = Some bk ->
    one_time_key reader = Some otk ->
    message reader = Some inner ->
    length ik = KEY_LENGTH -> length bk = KEY_LENGTH -> length otk = KEY_LENGTH ->
    (forall k, their_identity_key = Some k ->
               memcmp_eq (public_key k) ik KEY_LENGTH = true) ->
    loaded_path local_account
      (with_keys {| public_key := ik |} {| public_key := bk |}
                 {| public_key := otk |} s)
      (ratchet_key (decode_message inner (ratchet_cipher_mac_length (ratchet s))))
      outcome ->
    inbound_path local_account their_identity_key reader s outcome.

End Paths.

End olm.

(** * An executable instance of the other translation units

    Small stand-ins for the functions the two files call, so that the code
    above can be run on concrete inputs. Base64 is the unpadded standard
    alphabet; messages are a version byte followed by (tag, length, value)
    fields and, where the format has one, an 8-byte MAC; the cipher and the
    curve are xor toys with the shape of the real ones (a MAC over
    everything before it, a Diffie-Hellman that both sides compute alike). *)

Module Sample.

Definition byte_of_N (n : N) : byte :=
  match Byte.of_N (n mod 256) with
  | Some b => b
  | None => x00
  end.

Definition byte_xor (a b : byte) : byte :=
  byte_of_N (N.lxor (Byte.to_N a) (Byte.to_N b)).

Definition byte_add (a b : byte) : byte :=
  byte_of_N (Byte.to_N a + Byte.to_N b).

Fixpoint xor_bytes (a b : bytes) : bytes :=
  match a, b with
  | x :: a', y :: b' => byte_xor x y :: xor_bytes a' b'
  | _, _ => []
  end.

(** ** Base64 *)

Definition base64_value (c : byte) : N :=
  let n := Byte.to_N c in
  if ((65 <=? n) && (n <=? 90))%N then (n - 65)%N
  else if ((97 <=? n) && (n <=? 122))%N then (n - 71)%N
  else if ((48 <=? n) && (n <=? 57))%N then (n + 4)%N
  else if (n =? 43)%N then 62%N
  else if (n =? 47)%N then 63%N
  else 0%N.

Fixpoint base64_decode (input : bytes) : bytes :=
  match input with
  | a :: b :: c :: d :: rest =>
    let v := (((base64_value a * 64 + base64_value b) * 64
               + base64_value c) * 64 + base64_value d)%N in
    byte_of_N (v / 65536) :: byte_of_N (v / 256) :: byte_of_N v
      :: base64_decode rest
  | [a; b; c] =>
    let v := ((base64_value a * 64 + base64_value b) * 64 + base64_value c)%N in
    [byte_of_N (v / 1024); byte_of_N (v / 4)]
  | [a; b] =>
    let v := (base64_value a * 64 + base64_value b)%N in
    [byte_of_N (v / 16)]
  | _ => []
  end.

Definition decode_base64_length (input_length : nat) : size_t :=
  if Nat.eqb (input_length mod 4) 1 then None
  else Some (input_length * 3 / 4).

Definition decode_base64 (input : bytes) : size_t * bytes :=
  match decode_base64_length (length input) with
  | None => (None, [])
  | Some n => (Some n, base64_decode input)
  end.

(** ** Tagged fields *)

Fixpoint fields (fuel : nat) (input : bytes) : list (byte * bytes) :=
  match fuel, input with
  | S fuel, tag :: len :: rest =>
    let n := N.to_nat (Byte.to_N len) in
    if Nat.leb n (length rest) then
      (tag, firstn n rest) :: fields fuel (skipn n rest)
    else []
  | _, _ => []
  end.

Definition field (tag : byte) (fs : list (byte * bytes)) : option bytes :=
  option_map snd (find (fun f => Byte.eqb (fst f) tag) fs).

Definition big_endian (b : bytes) : Z :=
  fold_left (fun acc x => (acc * 256 + Z.of_N (Byte.to_N x))%Z) b 0%Z.

(** The fields of an input, after its version byte and before a trailer of
    [trailer] bytes. *)
Definition frame (input : bytes) (trailer : nat) : Z * list (byte * bytes) :=
  match input with
  | [] => (0%Z, [])
  | v :: rest =>
    let body := firstn (length rest - trailer) rest in
    (Z.of_N (Byte.to_N v), fields (length body) body)
  end.

(** ** The Megolm side *)

Definition decode_group_message (message : bytes) (mac_length : nat)
  : InboundGroupSession._OlmDecodeGroupMessageResults :=
  let '(v, fs) := frame message mac_length in
  {| InboundGroupSession.version := v;
     InboundGroupSession.session_id := field x0a fs;
     InboundGroupSession.has_message_index := match field x10 fs with Some _ => true | None => false end;
     InboundGroupSession.message_index :=
       match field x10 fs with Some b => big_endian b | None => 0%Z end;
     InboundGroupSession.ciphertext := field x1a fs |}.

(** The 8-byte tag of the toy cipher: the head of the key, each byte xored
    with the xor of the authenticated bytes. *)
Definition tag_of (key body : bytes) : bytes :=
  map (byte_xor (fold_right byte_xor x00 body)) (firstn 8 key).

Definition toy_decrypt (key input ciphertext : bytes) (max_plaintext_length : nat)
  : option bytes :=
  let n := length input - 8 in
  if Nat.ltb (length input) 8 then None
  else if negb (bytes_eqb (skipn n input) (tag_of key (firstn n input))) then None
  else Some (map (byte_xor (nth 8 key x00)) ciphertext).

Definition toy_cipher : InboundGroupSession.olm_cipher :=
  {| InboundGroupSession.mac_length := 8;
     InboundGroupSession.decrypt_max_plaintext_length := fun n => n;
     InboundGroupSession.decrypt := toy_decrypt |}.

(** The toy ratchet moves its counter to the target and adds the number of
    steps to every byte of its data. *)
Definition toy_advance_to (m : InboundGroupSession.Megolm) (advance_to : Z)
  : InboundGroupSession.Megolm :=
  let steps := u32_sub advance_to (InboundGroupSession.counter m) in
  {| InboundGroupSession.data :=
       map (byte_add (byte_of_N (Z.to_N steps))) (InboundGroupSession.data m);
     InboundGroupSession.counter := advance_to |}.

Definition group : InboundGroupSession.externals :=
  {| InboundGroupSession._olm_decode_base64_length := decode_base64_length;
     InboundGroupSession._olm_decode_base64 := decode_base64;
     InboundGroupSession._olm_decode_group_message := decode_group_message;
     InboundGroupSession.megolm_advance_to := toy_advance_to;
     InboundGroupSession.megolm_cipher := toy_cipher |}.

(** ** The Olm side *)

Definition toy_generate_key (random_32_bytes : bytes) : olm.Curve25519KeyPair :=
  {| olm.public_part := {| olm.public_key := map (byte_xor x55) random_32_bytes |};
     olm.private_key := random_32_bytes |}.

(** The first 32 bytes, zeros where there are fewer. *)
Definition pad32 (b : bytes) : bytes := firstn 32 (b ++ repeat x00 32).

Definition toy_shared_secret (our_key : olm.Curve25519KeyPair)
    (their_key : olm.Curve25519PublicKey) : bytes :=
  xor_bytes (pad32 (olm.private_key our_key))
            (pad32 (map (byte_xor x55) (olm.public_key their_key))).

(** A 32-byte digest: the xor of the 32-byte blocks of the input, the last
    one padded, each block turned by its position. *)
Fixpoint toy_digest (fuel : nat) (acc input : bytes) : bytes :=
  match fuel, input with
  | S fuel, _ :: _ =>
    let block := firstn 32 (input ++ repeat x00 32) in
    toy_digest fuel (map (byte_add x01) (xor_bytes acc block)) (skipn 32 input)
  | _, _ => acc
  end.

Definition toy_sha256 (input : bytes) : bytes :=
  toy_digest (length input) (repeat x00 32) input.

Definition decode_one_time_key_message (input : bytes) : olm.PreKeyMessageReader :=
  let '(_, fs) := frame input 0 in
  {| olm.one_time_key := field x0a fs;
     olm.base_key := field x12 fs;
     olm.identity_key := field x1a fs;
     olm.message := field x22 fs |}.

Definition decode_message (input : bytes) (mac_length : nat) : olm.MessageReader :=
  let '(_, fs) := frame input mac_length in
  {| olm.ratchet_key := field x0a fs |}.

Definition put (tag : byte) (value : bytes) : bytes :=
  tag :: byte_of_N (N.of_nat (length value)) :: value.

Definition encode_one_time_key_message (version : Z)
    (one_time_key identity_key base_key message : bytes) : bytes :=
  byte_of_N (Z.to_N version)
    :: put x0a one_time_key ++ put x12 base_key ++ put x1a identity_key
    ++ put x22 message.

(** The state of the toy ratchet is its key. A message is a version byte,
    the ratchet key, the ciphertext, and the tag of the toy cipher. *)
Definition toy_ratchet_encrypt (r : olm.Ratchet bytes) (plaintext random : bytes)
    (output_length : nat) : olm.Ratchet bytes * option bytes :=
  let body :=
    x03 :: put x0a (firstn 32 (olm.core r))
        ++ put x22 (map (byte_xor (nth 8 (olm.core r) x00)) plaintext) in
  (r, Some (body ++ tag_of (olm.core r) body)).

Definition toy_ratchet_decrypt (r : olm.Ratchet bytes) (input : bytes)
    (max_plaintext_length : nat) : olm.Ratchet bytes * option bytes :=
  let '(_, fs) := frame input 8 in
  match field x22 fs with
  | None =>
    ({| olm.core := olm.core r; olm.ratchet_last_error := olm.BAD_MESSAGE_FORMAT |},
     None)
  | Some ciphertext =>
    match toy_decrypt (olm.core r) input ciphertext max_plaintext_length with
    | None =>
      ({| olm.core := olm.core r; olm.ratchet_last_error := olm.BAD_MESSAGE_MAC |},
       None)
    | Some plaintext => (r, Some plaintext)
    end
  end.

Definition toy_ratchet_decrypt_max_plaintext_length (r : olm.Ratchet bytes)
    (input : bytes) : olm.Ratchet bytes * size_t :=
  let '(_, fs) := frame input 8 in
  match field x22 fs with
  | None =>
    ({| olm.core := olm.core r; olm.ratchet_last_error := olm.BAD_MESSAGE_FORMAT |},
     None)
  | Some ciphertext => (r, Some (length ciphertext))
  end.

Definition session : olm.externals :=
  {| olm.ratchet_core := bytes;
     olm.curve25519_generate_key := toy_generate_key;
     olm.curve25519_shared_secret := toy_shared_secret;
     olm.sha256 := toy_sha256;
     olm.decode_one_time_key_message := decode_one_time_key_message;
     olm.decode_message := decode_message;
     olm.encode_one_time_key_message_length :=
       fun a b c d => 1 + (2 + a) + (2 + b) + (2 + c) + (2 + d);
     olm.encode_one_time_key_message := encode_one_time_key_message;
     olm.ratchet_cipher_mac_length := fun _ => 8;
     olm.initialise_as_alice :=
       fun r secret _ =>
         {| olm.core := secret; olm.ratchet_last_error := olm.ratchet_last_error r |};
     olm.initialise_as_bob :=
       fun r secret _ =>
         {| olm.core := secret; olm.ratchet_last_error := olm.ratchet_last_error r |};
     olm.ratchet_encrypt_output_length := fun _ n => 1 + (2 + 32) + (2 + n) + 8;
     olm.ratchet_encrypt_random_length := fun _ => 0;
     olm.ratchet_encrypt := toy_ratchet_encrypt;
     olm.ratchet_decrypt_max_plaintext_length :=
       toy_ratchet_decrypt_max_plaintext_length;
     olm.ratchet_decrypt := toy_ratchet_decrypt |}.

(** ** Concrete sessions and messages *)

Import String.

Definition text (t : string) : bytes := list_byte_of_string t.

(** The base64 of the 128 bytes 00 01 02 ... 7f. *)
Definition session_key_0 : bytes :=
  text "AAECAwQFBgcICQoLDA0ODxAREhMUFRYXGBkaGxwdHh8gISIjJCUmJygpKissLS4vMDEyMzQ1Njc4OTo7PD0+P0BBQkNERUZHSElKS0xNTk9QUVJTVFVWV1hZWltcXV5fYGFiY2RlZmdoaWprbG1ub3BxcnN0dXZ3eHl6e3x9fn8".

Definition cleared : InboundGroupSession.OlmInboundGroupSession :=
  {| InboundGroupSession.initial_ratchet :=
       {| InboundGroupSession.data := repeat x00 128;
          InboundGroupSession.counter := 0 |};
     InboundGroupSession.latest_ratchet :=
       {| InboundGroupSession.data := repeat x00 128;
          InboundGroupSession.counter := 0 |};
     InboundGroupSession.last_error := OLM_SUCCESS |}.

(** The ratchet of the sender at index [i]: the 128 bytes of
    [session_key_0] at index 0, advanced. *)
Definition ratchet_at (i : Z) : InboundGroupSession.Megolm :=
  toy_advance_to
    (InboundGroupSession.megolm_init (snd (decode_base64 session_key_0)) 0) i.

(** A session that joined at index [first] and has seen index [latest]. *)
Definition group_session (first latest : Z)
  : InboundGroupSession.OlmInboundGroupSession :=
  {| InboundGroupSession.initial_ratchet := ratchet_at first;
     InboundGroupSession.latest_ratchet := ratchet_at latest;
     InboundGroupSession.last_error := OLM_SUCCESS |}.

(** Base64 of [03 | 0a 01 53 | 10 01 05 | 1a 03 65 64 2c | 7e 7d 7c 73 72 71
    70 77]: version 3, session id "S", index 5, three bytes of ciphertext
    ("hi!" under the key of index 5 after index 0), and the 8-byte tag. No
    signature follows the tag. *)
Definition message_5 : bytes := text "AwoBUxABBRoDZWQsfn18c3JxcHc".

Definition plaintext_5 : bytes := text "hi!".

(** The bytes of [message_5] followed by 64 bytes [aa], where a signature
    would be. *)
Definition message_5_signed : bytes :=
  text "AwoBUxABBRoDZWQsfn18c3JxcHeqqqqqqqqqqqqqqqqqqqqqqqqqqqqqqqqqqqqqqqqqqqqqqqqqqqqqqqqqqqqqqqqqqqqqqqqqqqqqqqqqqqqq".

(** [message_5] with the last bit of its tag flipped. *)
Definition message_5_forged : bytes := text "AwoBUxABBRoDZWQsfn18c3JxcHY".

(** Two accounts. Bob has published one one-time key. *)
Definition alice_account : olm.Account :=
  {| olm.identity_keys_curve25519_key := toy_generate_key (repeat x0a 32);
     olm.one_time_keys := [] |}.

Definition bob_one_time_key : olm.OneTimeKey :=
  {| olm.id := 1; olm.published := true;
     olm.key := toy_generate_key (repeat x0e 32) |}.

Definition bob_account : olm.Account :=
  {| olm.identity_keys_curve25519_key := toy_generate_key (repeat x0b 32);
     olm.one_time_keys := [bob_one_time_key] |}.

Definition no_key : olm.Curve25519PublicKey :=
  {| olm.public_key := repeat x00 32 |}.

(** A session as its constructor leaves it, over zeroed memory. *)
Definition constructed : olm.Session (X := session) :=
  olm.Session_ctor (X := session) [] no_key no_key no_key.

(** 32 bytes [01] for the base key, 32 bytes [02] for the ratchet key. *)
Definition random_64 : bytes := repeat x01 32 ++ repeat x02 32.

Definition alice_session : olm.Session (X := session) :=
  fst (olm.new_outbound_session (X := session) alice_account
         (olm.public_part (olm.identity_keys_curve25519_key bob_account))
         (olm.public_part (olm.key bob_one_time_key)) random_64 constructed).

(** The first message of Alice, a pre-key message around "hi!". *)
Definition pre_key_message : bytes :=
  match snd (olm.encrypt (X := session) plaintext_5 [] 200 alice_session) with
  | Some (_, message) => message
  | None => []
  end.

(** The same envelope around an inner message without a ratchet key. *)
Definition pre_key_message_no_ratchet_key : bytes :=
  encode_one_time_key_message 3
    (olm.public_key (olm.public_part (olm.key bob_one_time_key)))
    (olm.public_key (olm.public_part (olm.identity_keys_curve25519_key alice_account)))
    (olm.public_key (olm.alice_base_key alice_session))
    [x03; x22; x00; x00; x00; x00; x00; x00; x00; x00; x00].

(** The same envelope naming a one-time key Bob does not have. *)
Definition pre_key_message_unknown_key : bytes :=
  encode_one_time_key_message 3
    (repeat x77 32)
    (olm.public_key (olm.public_part (olm.identity_keys_curve25519_key alice_account)))
    (olm.public_key (olm.alice_base_key alice_session))
    (match olm.message (decode_one_time_key_message pre_key_message) with
     | Some inner => inner
     | None => []
     end).

(** An envelope without the identity key of its sender. *)
Definition pre_key_message_no_identity : bytes :=
  x03 :: put x0a (olm.public_key (olm.public_part (olm.key bob_one_time_key)))
      ++ put x12 (olm.public_key (olm.alice_base_key alice_session))
      ++ put x22 [x03].

(** The session of Bob that the first message of Alice creates. *)
Definition bob_session : olm.Session (X := session) :=
  match olm.new_inbound_session (X := session) bob_account None
          pre_key_message constructed with
  | olm.returns s _ => s
  | olm.null_pointer_read => constructed
  end.

(** [pre_key_message] with the last bit of its tag flipped. *)
Definition pre_key_message_forged : bytes :=
  firstn 152 pre_key_message ++ [x29].

(** A session of Bob that holds the triple of some earlier handshake. *)
Definition bob_earlier : olm.Session (X := session) :=
  olm.with_keys {| olm.public_key := repeat x11 32 |}
                {| olm.public_key := repeat x22 32 |}
                {| olm.public_key := repeat x33 32 |} constructed.

(** [message_5] without its session id field, the tag recomputed. *)
Definition message_5_no_session_id : bytes := text "AxABBRoDZWQsJiUkKyopKC8".

(** ** Pickling *)

Definition be32 (v : Z) : bytes :=
  [byte_of_N (Z.to_N (v / 16777216)); byte_of_N (Z.to_N (v / 65536));
   byte_of_N (Z.to_N (v / 256)); byte_of_N (Z.to_N v)].

Definition read_be32 (pos : bytes) : Z * bytes :=
  if Nat.ltb (List.length pos) 4 then (0%Z, [])
  else (big_endian (firstn 4 pos), skipn 4 pos).

Definition toy_megolm_pickle (m : InboundGroupSession.Megolm) : bytes :=
  InboundGroupSession.data m ++ be32 (InboundGroupSession.counter m).

Definition toy_megolm_unpickle (m : InboundGroupSession.Megolm) (pos : bytes)
  : InboundGroupSession.Megolm * bytes :=
  if Nat.ltb (List.length pos) 132 then (m, [])
  else
    ({| InboundGroupSession.data := firstn 128 pos;
        InboundGroupSession.counter := big_endian (firstn 4 (skipn 128 pos)) |},
     skipn 132 pos).

(** The toy container: the raw bytes followed by the 8-byte tag [tag_of]
    gives them under the key. *)
Definition toy_enc_output (key raw : bytes) (raw_length : nat) : size_t * bytes :=
  let body := firstn raw_length raw in
  let pickled := body ++ tag_of (key ++ repeat x00 8) body in
  (Some (List.length pickled), pickled).

Definition toy_enc_input (key pickled : bytes) (e : OlmErrorCode)
  : size_t * bytes * OlmErrorCode :=
  let n := List.length pickled - 8 in
  if Nat.ltb (List.length pickled) 8 then (None, pickled, OLM_BAD_ACCOUNT_KEY)
  else if negb (bytes_eqb (skipn n pickled)
                          (tag_of (key ++ repeat x00 8) (firstn n pickled)))
  then (None, pickled, OLM_BAD_ACCOUNT_KEY)
  else (Some n, pickled, e).

Definition group_pickle : InboundGroupSession.pickle_externals :=
  {| InboundGroupSession._olm_pickle_uint32_length := fun _ => 4;
     InboundGroupSession._olm_pickle_uint32 := be32;
     InboundGroupSession._olm_unpickle_uint32 := read_be32;
     InboundGroupSession.megolm_pickle_length := fun _ => 132;
     InboundGroupSession.megolm_pickle := toy_megolm_pickle;
     InboundGroupSession.megolm_unpickle := toy_megolm_unpickle;
     InboundGroupSession._olm_enc_output_length := fun n => n + 8;
     InboundGroupSession._olm_enc_output := toy_enc_output;
     InboundGroupSession._olm_enc_input := toy_enc_input |}.

Definition pickle_key : bytes := text "secret".

(** The pickle of the session that joined at index 2 and has seen index 12. *)
Definition group_pickled : bytes :=
  snd (InboundGroupSession.olm_pickle_inbound_group_session
         (P := group_pickle) (group_session 2 12) pickle_key 300).

(** [group_pickled] with one byte [00] inserted before its tag, the tag
    recomputed: a container that opens, around a pickle one byte too long. *)
Definition group_pickled_long : bytes :=
  snd (toy_enc_output pickle_key
         (firstn (List.length group_pickled - 8) group_pickled ++ [x00]) 269).

(** The same for a pickle whose version is 2. *)
Definition group_pickled_version_2 : bytes :=
  snd (toy_enc_output pickle_key
         (be32 2 ++ skipn 4 (firstn (List.length group_pickled - 8) group_pickled))
         268).

Definition toy_unpickle_bool (pos : bytes) (value : bool) : bool * bytes :=
  match pos with
  | [] => (value, [])
  | b :: pos => (negb (Byte.eqb b x00), pos)
  end.

Definition toy_unpickle_key (pos : bytes) (value : olm.Curve25519PublicKey)
  : olm.Curve25519PublicKey * bytes :=
  if Nat.ltb (List.length pos) 32 then (value, [])
  else ({| olm.public_key := firstn 32 pos |}, skipn 32 pos).

Definition toy_pickle_ratchet (r : olm.Ratchet bytes) : bytes :=
  be32 (Z.of_nat (List.length (olm.core r))) ++ olm.core r.

Definition toy_pickle_length_ratchet (r : olm.Ratchet bytes) : nat :=
  4 + List.length (olm.core r).

Definition toy_unpickle_ratchet (pos : bytes) (r : olm.Ratchet bytes)
  : olm.Ratchet bytes * bytes :=
  let '(n, pos) := read_be32 pos in
  if Nat.ltb (List.length pos) (Z.to_nat n) then (r, [])
  else
    ({| olm.core := firstn (Z.to_nat n) pos;
        olm.ratchet_last_error := olm.ratchet_last_error r |},
     skipn (Z.to_nat n) pos).

Definition session_pickle : olm.pickle_externals (X := session) :=
  @olm.Build_pickle_externals session
    (fun _ => 4) be32 read_be32
    (fun _ => 1) (fun b => [if b then x01 else x00]) toy_unpickle_bool
    (fun _ => 32) (fun k => pad32 (olm.public_key k)) toy_unpickle_key
    toy_pickle_length_ratchet toy_pickle_ratchet toy_unpickle_ratchet.

End Sample.

Unset Implicit Arguments.

(** Closes a goal about a concrete run by running the code. *)
Ltac by_running :=
  vm_compute; solve [reflexivity | discriminate | repeat constructor].

(** * Facts about inbound_group_session.c *)

Module InboundGroupSessionFacts.

Import InboundGroupSession.

Section Facts.

Context {X : externals}.

Lemma _decrypt_well_formed s message max ct :
  let d := _olm_decode_group_message message (mac_length (olm_cipher := megolm_cipher)) in
  well_formed d ct max ->
  _decrypt s message max =
  match pick_megolm s (message_index d) with
  | None => (set_last_error OLM_UNKNOWN_MESSAGE_INDEX s, None)
  | Some p =>
    let '(s1, m) := advance_through s p (message_index d) in
    match decrypt (olm_cipher := megolm_cipher) (data m) message ct max with
    | None => (set_last_error OLM_BAD_MESSAGE_MAC s1, None)
    | Some plaintext => (s1, Some plaintext)
    end
  end.
Proof.
  intros d (Hv & Hi & Hs & Hc & Hm).
  unfold _decrypt. fold d.
  rewrite Hv, Z.eqb_refl, Hi, Hc. cbn [negb].
  destruct (session_id d) as [sid|]; [|congruence].
  apply Nat.ltb_ge in Hm. rewrite Hm.
  destruct (pick_megolm s (message_index d)) as [p|]; [|reflexivity].
  destruct (advance_through s p (message_index d)) as [s1 m].
  reflexivity.
Qed.

Lemma _decrypt_accepts s message max plaintext :
  snd (_decrypt s message max) = Some plaintext ->
  exists ct m,
    well_formed (_olm_decode_group_message message
                   (mac_length (olm_cipher := megolm_cipher))) ct max
    /\ keying_ratchet s (message_index (_olm_decode_group_message message
                   (mac_length (olm_cipher := megolm_cipher)))) = Some m
    /\ decrypt (olm_cipher := megolm_cipher) (data m) message ct max = Some plaintext.
Proof.
  unfold _decrypt, keying_ratchet, well_formed.
  set (d := _olm_decode_group_message message _).
  destruct (version d =? OLM_PROTOCOL_VERSION)%Z eqn:Hv; cbn [negb]; [|discriminate].
  destruct (has_message_index d) eqn:Hi; [|discriminate].
  destruct (session_id d) as [sid|] eqn:Hs; [|discriminate].
  destruct (ciphertext d) as [ct|] eqn:Hc; [|discriminate].
  destruct (Nat.ltb max _) eqn:Hm; [discriminate|].
  destruct (pick_megolm s (message_index d)) as [p|]; [|discriminate].
  cbn [option_map].
  destruct (advance_through s p (message_index d)) as [s1 m]. cbn [snd].
  destruct (decrypt (megolm_get_data m) message ct max) as [pl|] eqn:Hd;
    [|discriminate].
  cbn [snd]. intros [= <-].
  exists ct, m. repeat split; auto.
  - now apply Z.eqb_eq.
  - discriminate.
  - now apply Nat.ltb_ge.
Qed.

(** A well-formed message, base64 and all: what [olm_group_decrypt] does
    with it is decided by the choice of ratchet and by the cipher. *)
Lemma olm_group_decrypt_well_formed s message max n raw ct :
  _olm_decode_base64 message = (Some n, raw) ->
  let d := _olm_decode_group_message (firstn n raw)
             (mac_length (olm_cipher := megolm_cipher)) in
  well_formed d ct max ->
  olm_group_decrypt s message max =
  match pick_megolm s (message_index d) with
  | None => (set_last_error OLM_UNKNOWN_MESSAGE_INDEX s, None)
  | Some p =>
    let '(s1, m) := advance_through s p (message_index d) in
    match decrypt (olm_cipher := megolm_cipher) (data m) (firstn n raw) ct max with
    | None => (set_last_error OLM_BAD_MESSAGE_MAC s1, None)
    | Some plaintext => (s1, Some plaintext)
    end
  end.
Proof.
  intros Hb d Hw. unfold olm_group_decrypt. rewrite Hb.
  now apply _decrypt_well_formed.
Qed.

Lemma pick_latest s c :
  (u32_sub c (counter (latest_ratchet s)) < 2 ^ 31)%Z ->
  pick_megolm s c = Some ptr_latest_ratchet.
Proof.
  intros H. unfold pick_megolm.
  apply Z.ltb_lt in H. now rewrite H.
Qed.

Lemma pick_unknown s c :
  (2 ^ 31 <= u32_sub c (counter (latest_ratchet s)))%Z ->
  (2 ^ 31 <= u32_sub c (counter (initial_ratchet s)))%Z ->
  pick_megolm s c = None.
Proof.
  intros H1 H2. unfold pick_megolm.
  apply Z.ltb_ge in H1. rewrite H1.
  apply Z.geb_le in H2. now rewrite H2.
Qed.

Lemma pick_tmp s c :
  (2 ^ 31 <= u32_sub c (counter (latest_ratchet s)))%Z ->
  (u32_sub c (counter (initial_ratchet s)) < 2 ^ 31)%Z ->
  pick_megolm s c = Some (ptr_tmp_megolm (initial_ratchet s)).
Proof.
  intros H1 H2. unfold pick_megolm.
  apply Z.ltb_ge in H1. rewrite H1.
  destruct (u32_sub c (counter (initial_ratchet s)) >=? 2 ^ 31)%Z eqn:E;
    [|reflexivity].
  apply Z.geb_le in E. lia.
Qed.

(** C1, as the code has it. When the cipher rejects a well-formed message
    (its MAC does not verify), [olm_group_decrypt] returns the error value
    with [last_error = OLM_BAD_MESSAGE_MAC] and the initial ratchet is what
    it was. The latest ratchet is what it was only when the message index is
    behind it, where a scratch copy of the initial ratchet was advanced; when
    the index is at or beyond the latest ratchet, the latest ratchet has been
    advanced to the index of the rejected message and stays there. *)
Theorem group_decrypt_mac_failure s message max n raw ct :
  _olm_decode_base64 message = (Some n, raw) ->
  let d := _olm_decode_group_message (firstn n raw)
             (mac_length (olm_cipher := megolm_cipher)) in
  let c := message_index d in
  well_formed d ct max ->
  ((u32_sub c (counter (latest_ratchet s)) < 2 ^ 31)%Z ->
   decrypt (olm_cipher := megolm_cipher)
     (data (megolm_advance_to (latest_ratchet s) c)) (firstn n raw) ct max = None ->
   olm_group_decrypt s message max =
   ({| initial_ratchet := initial_ratchet s;
       latest_ratchet := megolm_advance_to (latest_ratchet s) c;
       last_error := OLM_BAD_MESSAGE_MAC |}, None))
  /\
  ((2 ^ 31 <= u32_sub c (counter (latest_ratchet s)))%Z ->
   (u32_sub c (counter (initial_ratchet s)) < 2 ^ 31)%Z ->
   decrypt (olm_cipher := megolm_cipher)
     (data (megolm_advance_to (initial_ratchet s) c)) (firstn n raw) ct max = None ->
   olm_group_decrypt s message max =
   ({| initial_ratchet := initial_ratchet s;
       latest_ratchet := latest_ratchet s;
       last_error := OLM_BAD_MESSAGE_MAC |}, None)).
Proof.
  intros Hb d c Hw.
  pose proof (olm_group_decrypt_well_formed s message max n raw ct Hb Hw) as E.
  fold d in E. fold c in E.
  split.
  - intros Hl Hd. rewrite E, (pick_latest _ _ Hl).
    cbn [advance_through]. now rewrite Hd.
  - intros Hl Hi Hd. rewrite E, (pick_tmp _ _ Hl Hi).
    cbn [advance_through]. now rewrite Hd.
Qed.

(** C2, as the code has it. [olm_group_decrypt] verifies no signature: it
    accepts a message, returning a plaintext, exactly when the base64
    decodes, the decoded message has version 3 and its three fields, the
    plaintext fits, the index is not before the initial ratchet, and the
    cipher (MAC and decryption) accepts it under the data of the chosen
    ratchet. Nothing else about the message is looked at. *)
Theorem group_decrypt_accepts_iff s message max plaintext :
  snd (olm_group_decrypt s message max) = Some plaintext
  <->
  exists n raw ct m,
    _olm_decode_base64 message = (Some n, raw)
    /\ well_formed (_olm_decode_group_message (firstn n raw)
                      (mac_length (olm_cipher := megolm_cipher))) ct max
    /\ keying_ratchet s
         (message_index (_olm_decode_group_message (firstn n raw)
                      (mac_length (olm_cipher := megolm_cipher)))) = Some m
    /\ decrypt (olm_cipher := megolm_cipher) (data m) (firstn n raw) ct max
       = Some plaintext.
Proof.
  split.
  - unfold olm_group_decrypt.
    destruct (_olm_decode_base64 message) as [[n|] raw] eqn:Hb; [|discriminate].
    intros H. apply _decrypt_accepts in H. destruct H as (ct & m & Hw & Hk & Hd).
    now exists n, raw, ct, m.
  - intros (n & raw & ct & m & Hb & Hw & Hk & Hd).
    rewrite (olm_group_decrypt_well_formed s message max n raw ct Hb Hw).
    unfold keying_ratchet in Hk.
    destruct (pick_megolm s _) as [p|]; [|discriminate].
    cbn [option_map] in Hk.
    destruct (advance_through s p _) as [s1 m1]. cbn [snd] in Hk.
    injection Hk as ->. now rewrite Hd.
Qed.

(** C4. For a well-formed message with index [c], all subtractions unsigned
    32-bit: if [c - latest_ratchet.counter < 2^31] the latest ratchet is
    advanced to [c] in the session and its data keys the cipher; else if
    [c - initial_ratchet.counter >= 2^31] the call fails with
    [OLM_UNKNOWN_MESSAGE_INDEX], whatever the cipher, and both ratchets are
    what they were; otherwise the initial ratchet advanced to [c] keys the
    cipher and both ratchets of the session are what they were. *)
Theorem group_decrypt_chooses_ratchet s message max n raw ct :
  _olm_decode_base64 message = (Some n, raw) ->
  let d := _olm_decode_group_message (firstn n raw)
             (mac_length (olm_cipher := megolm_cipher)) in
  let c := message_index d in
  let outcome (m : Megolm) (latest : Megolm) :=
    match decrypt (olm_cipher := megolm_cipher) (data m) (firstn n raw) ct max with
    | None =>
      ({| initial_ratchet := initial_ratchet s; latest_ratchet := latest;
          last_error := OLM_BAD_MESSAGE_MAC |}, None)
    | Some plaintext =>
      ({| initial_ratchet := initial_ratchet s; latest_ratchet := latest;
          last_error := last_error s |}, Some plaintext)
    end in
  well_formed d ct max ->
  ((u32_sub c (counter (latest_ratchet s)) < 2 ^ 31)%Z ->
   olm_group_decrypt s message max =
   outcome (megolm_advance_to (latest_ratchet s) c)
           (megolm_advance_to (latest_ratchet s) c))
  /\
  ((2 ^ 31 <= u32_sub c (counter (latest_ratchet s)))%Z ->
   (2 ^ 31 <= u32_sub c (counter (initial_ratchet s)))%Z ->
   olm_group_decrypt s message max =
   ({| initial_ratchet := initial_ratchet s;
       latest_ratchet := latest_ratchet s;
       last_error := OLM_UNKNOWN_MESSAGE_INDEX |}, None))
  /\
  ((2 ^ 31 <= u32_sub c (counter (latest_ratchet s)))%Z ->
   (u32_sub c (counter (initial_ratchet s)) < 2 ^ 31)%Z ->
   olm_group_decrypt s message max =
   outcome (megolm_advance_to (initial_ratchet s) c) (latest_ratchet s)).
Proof.
  intros Hb d c outcome Hw.
  pose proof (olm_group_decrypt_well_formed s message max n raw ct Hb Hw) as E.
  fold d in E. fold c in E. unfold outcome.
  repeat split.
  - intros Hl. rewrite E, (pick_latest _ _ Hl). cbn [advance_through].
    now destruct (decrypt _ _ _ _).
  - intros Hl Hi. now rewrite E, (pick_unknown _ _ Hl Hi).
  - intros Hl Hi. rewrite E, (pick_tmp _ _ Hl Hi). cbn [advance_through].
    destruct (decrypt _ _ _ _); [destruct s|]; reflexivity.
Qed.

(** C3, as the code has it. [olm_init_inbound_group_session] looks at no
    version byte. It succeeds exactly when the base64 length of the key
    decodes to 128 bytes; it then sets both ratchets to [megolm_init] of the
    decoded bytes and the [message_index] argument and leaves [last_error].
    Otherwise it returns the error value, with [OLM_INVALID_BASE64] when the
    length is no base64 length and [OLM_BAD_SESSION_KEY] when the decoded
    length is not 128, and both ratchets are what they were. *)
Theorem init_inbound_group_session_checks s message_index session_key :
  let r := olm_init_inbound_group_session s message_index session_key in
  let key_buf := snd (_olm_decode_base64 session_key) in
  (snd r = Some 0
   <-> _olm_decode_base64_length (length session_key) = Some MEGOLM_RATCHET_LENGTH)
  /\ (snd r = Some 0 ->
      fst r = {| initial_ratchet := megolm_init key_buf message_index;
                 latest_ratchet := megolm_init key_buf message_index;
                 last_error := last_error s |})
  /\ (snd r <> Some 0 ->
      snd r = None
      /\ initial_ratchet (fst r) = initial_ratchet s
      /\ latest_ratchet (fst r) = latest_ratchet s
      /\ last_error (fst r) =
         match _olm_decode_base64_length (length session_key) with
         | None => OLM_INVALID_BASE64
         | Some _ => OLM_BAD_SESSION_KEY
         end).
Proof.
  unfold olm_init_inbound_group_session.
  destruct (_olm_decode_base64_length (length session_key)) as [n|]; cbn zeta.
  - destruct (Nat.eqb n MEGOLM_RATCHET_LENGTH) eqn:E; cbn [negb fst snd].
    + apply Nat.eqb_eq in E. subst n.
      split; [tauto|]. split; [reflexivity|]. intros F. now elim F.
    + apply Nat.eqb_neq in E.
      split; [split; [discriminate|intros [= F]; now elim E]|].
      split; [discriminate|]. now intros _.
  - cbn [fst snd].
    split; [split; discriminate|]. split; [discriminate|]. now intros _.
Qed.

(** C9. After a successful [olm_init_inbound_group_session], the two
    ratchets are equal, the counter of each is the [message_index] argument,
    and, the decoder having written the 128 bytes its length function
    announced, the data of each is those 128 decoded bytes. *)
Theorem init_ratchets_identical s message_index session_key s' :
  (forall n, _olm_decode_base64_length (length session_key) = Some n ->
             length (snd (_olm_decode_base64 session_key)) = n) ->
  olm_init_inbound_group_session s message_index session_key = (s', Some 0) ->
  initial_ratchet s' = latest_ratchet s'
  /\ counter (initial_ratchet s') = message_index
  /\ counter (latest_ratchet s') = message_index
  /\ data (initial_ratchet s') = snd (_olm_decode_base64 session_key)
  /\ data (latest_ratchet s') = snd (_olm_decode_base64 session_key)
  /\ length (data (latest_ratchet s')) = MEGOLM_RATCHET_LENGTH.
Proof.
  intros Hlen. unfold olm_init_inbound_group_session.
  destruct (_olm_decode_base64_length (length session_key)) as [n|];
    [|discriminate].
  destruct (Nat.eqb n MEGOLM_RATCHET_LENGTH) eqn:E; cbn [negb]; [|discriminate].
  apply Nat.eqb_eq in E. subst n.
  specialize (Hlen _ eq_refl).
  intros [= <-].
  cbn [initial_ratchet latest_ratchet set_latest_ratchet set_initial_ratchet
       data counter megolm_init].
  assert (F : firstn MEGOLM_RATCHET_LENGTH (snd (_olm_decode_base64 session_key))
              = snd (_olm_decode_base64 session_key)).
  { apply firstn_all2. rewrite Hlen. apply Nat.le_refl. }
  rewrite F. repeat split; auto.
Qed.

End Facts.

(** ** Runs of the code on the sample instance *)

Lemma group_decrypt_mac_failure_witness :
  olm_group_decrypt (X := Sample.group) (Sample.group_session 0 0)
    Sample.message_5_forged 16
  = ({| initial_ratchet := Sample.ratchet_at 0;
        latest_ratchet := Sample.toy_advance_to (Sample.ratchet_at 0) 5;
        last_error := OLM_BAD_MESSAGE_MAC |}, None)
  /\
  olm_group_decrypt (X := Sample.group) (Sample.group_session 2 12)
    Sample.message_5_forged 16
  = ({| initial_ratchet := Sample.ratchet_at 2;
        latest_ratchet := Sample.ratchet_at 12;
        last_error := OLM_BAD_MESSAGE_MAC |}, None).
Proof.
  split.
  - refine (proj1 (group_decrypt_mac_failure (X := Sample.group)
                     (Sample.group_session 0 0) Sample.message_5_forged
                     16 20
                     (snd (Sample.decode_base64 Sample.message_5_forged))
                     [x65; x64; x2c] _ _) _ _).
    + by_running.
    + vm_compute. repeat split; try reflexivity; try discriminate.
      repeat constructor.
    + by_running.
    + by_running.
  - refine (proj2 (group_decrypt_mac_failure (X := Sample.group)
                     (Sample.group_session 2 12) Sample.message_5_forged
                     16 20
                     (snd (Sample.decode_base64 Sample.message_5_forged))
                     [x65; x64; x2c] _ _) _ _ _).
    + by_running.
    + vm_compute. repeat split; try reflexivity; try discriminate.
      repeat constructor.
    + by_running.
    + by_running.
    + by_running.
Defined.

(** C1 as stated fails: the tag of [message_5_forged] does not verify, the
    call reports [OLM_BAD_MESSAGE_MAC], and the latest ratchet, at counter 0
    before the call, is at counter 5 after it, with other data. *)
Lemma forged_message_advances_latest_ratchet :
  let s := Sample.group_session 0 0 in
  let r := olm_group_decrypt (X := Sample.group) s Sample.message_5_forged 16 in
  snd r = None
  /\ last_error (fst r) = OLM_BAD_MESSAGE_MAC
  /\ counter (latest_ratchet s) = 0%Z
  /\ counter (latest_ratchet (fst r)) = 5%Z
  /\ hd_error (data (latest_ratchet s)) = Some x00
  /\ hd_error (data (latest_ratchet (fst r))) = Some x05
  /\ latest_ratchet (fst r) <> latest_ratchet s.
Proof.
  vm_compute. repeat split. discriminate.
Qed.

Lemma group_decrypt_accepts_iff_witness :
  snd (olm_group_decrypt (X := Sample.group) (Sample.group_session 0 0)
         Sample.message_5 16) = Some Sample.plaintext_5.
Proof.
  apply (proj2 (group_decrypt_accepts_iff (X := Sample.group)
                  (Sample.group_session 0 0) Sample.message_5 16
                  Sample.plaintext_5)).
  exists 20, (snd (Sample.decode_base64 Sample.message_5)),
         [x65; x64; x2c], (Sample.ratchet_at 5).
  vm_compute. repeat split; try reflexivity; try discriminate.
  repeat constructor.
Defined.

(** C2 as stated fails: [message_5] is [message_5_signed] without its last
    64 bytes, it carries no signature, and it is decrypted. *)
Lemma stripped_message_is_decrypted :
  let raw_signed := snd (Sample.decode_base64 Sample.message_5_signed) in
  let raw := snd (Sample.decode_base64 Sample.message_5) in
  length raw_signed = length raw + 64
  /\ firstn (length raw_signed - 64) raw_signed = raw
  /\ snd (olm_group_decrypt (X := Sample.group) (Sample.group_session 0 0)
            Sample.message_5 16) = Some Sample.plaintext_5.
Proof.
  vm_compute. repeat split.
Qed.

Lemma init_inbound_group_session_checks_witness :
  fst (olm_init_inbound_group_session (X := Sample.group) Sample.cleared 7
         Sample.session_key_0)
  = {| initial_ratchet :=
         megolm_init (snd (Sample.decode_base64 Sample.session_key_0)) 7;
       latest_ratchet :=
         megolm_init (snd (Sample.decode_base64 Sample.session_key_0)) 7;
       last_error := OLM_SUCCESS |}.
Proof.
  apply (proj1 (proj2 (init_inbound_group_session_checks (X := Sample.group)
                         Sample.cleared 7 Sample.session_key_0))).
  by_running.
Defined.

(** C3 as stated fails: the key [session_key_0] decodes to 128 bytes of
    which the first is 00, not the version byte 02, and initialisation
    succeeds. *)
Lemma init_accepts_any_first_byte :
  hd_error (snd (Sample.decode_base64 Sample.session_key_0)) = Some x00
  /\ x00 <> SESSION_KEY_VERSION
  /\ snd (olm_init_inbound_group_session (X := Sample.group) Sample.cleared 0
            Sample.session_key_0) = Some 0.
Proof.
  vm_compute. repeat split. discriminate.
Qed.

Lemma group_decrypt_chooses_ratchet_witness :
  olm_group_decrypt (X := Sample.group) (Sample.group_session 0 3)
    Sample.message_5 16
  = ({| initial_ratchet := Sample.ratchet_at 0;
        latest_ratchet := Sample.ratchet_at 5;
        last_error := OLM_SUCCESS |}, Some Sample.plaintext_5)
  /\
  olm_group_decrypt (X := Sample.group) (Sample.group_session 10 12)
    Sample.message_5 16
  = ({| initial_ratchet := Sample.ratchet_at 10;
        latest_ratchet := Sample.ratchet_at 12;
        last_error := OLM_UNKNOWN_MESSAGE_INDEX |}, None)
  /\
  olm_group_decrypt (X := Sample.group) (Sample.group_session 2 12)
    Sample.message_5 16
  = ({| initial_ratchet := Sample.ratchet_at 2;
        latest_ratchet := Sample.ratchet_at 12;
        last_error := OLM_SUCCESS |}, Some Sample.plaintext_5).
Proof.
  assert (W :
    well_formed (X := Sample.group)
      (Sample.decode_group_message
         (firstn 20 (snd (Sample.decode_base64 Sample.message_5))) 8)
      [x65; x64; x2c] 16).
  { vm_compute. repeat split; try reflexivity; try discriminate.
    repeat constructor. }
  split; [|split].
  - refine (eq_trans
              (proj1 (group_decrypt_chooses_ratchet (X := Sample.group)
                        (Sample.group_session 0 3) Sample.message_5
                        16 20
                        (snd (Sample.decode_base64 Sample.message_5))
                        [x65; x64; x2c] _ W) _) _).
    + by_running.
    + by_running.
    + by_running.
  - refine (proj1 (proj2 (group_decrypt_chooses_ratchet (X := Sample.group)
                        (Sample.group_session 10 12) Sample.message_5
                        16 20
                        (snd (Sample.decode_base64 Sample.message_5))
                        [x65; x64; x2c] _ W)) _ _).
    + by_running.
    + by_running.
    + by_running.
  - refine (eq_trans
              (proj2 (proj2 (group_decrypt_chooses_ratchet (X := Sample.group)
                        (Sample.group_session 2 12) Sample.message_5
                        16 20
                        (snd (Sample.decode_base64 Sample.message_5))
                        [x65; x64; x2c] _ W)) _ _) _).
    + by_running.
    + by_running.
    + by_running.
    + by_running.
Defined.

Lemma init_ratchets_identical_witness :
  let s' :=
    fst (olm_init_inbound_group_session (X := Sample.group) Sample.cleared 7
           Sample.session_key_0) in
  initial_ratchet s' = latest_ratchet s'
  /\ counter (initial_ratchet s') = 7%Z
  /\ counter (latest_ratchet s') = 7%Z
  /\ data (initial_ratchet s') = snd (Sample.decode_base64 Sample.session_key_0)
  /\ data (latest_ratchet s') = snd (Sample.decode_base64 Sample.session_key_0)
  /\ length (data (latest_ratchet s')) = MEGOLM_RATCHET_LENGTH.
Proof.
  apply (init_ratchets_identical (X := Sample.group) Sample.cleared 7
           Sample.session_key_0).
  - intros n. vm_compute. now intros [= <-].
  - by_running.
Defined.

End InboundGroupSessionFacts.

(** * Facts about session.cpp *)

Module SessionFacts.

Import olm.

Lemma bytes_eqb_eq (a b : bytes) : bytes_eqb a b = true <-> a = b.
Proof.
  revert b. induction a as [|x a IH]; intros [|y b]; cbn;
    try (split; [discriminate|congruence]); try tauto.
  rewrite andb_true_iff, IH. split.
  - intros [Hxy ->]. apply Byte.byte_dec_bl in Hxy. now subst.
  - intros [= -> ->]. split; [now apply Byte.byte_dec_lb|reflexivity].
Qed.

(** On two buffers of [n] bytes, [memcmp] over [n] bytes is equality. *)
Lemma memcmp_eq_iff (a b : bytes) (n : nat) :
  length a = n -> length b = n -> (memcmp_eq a b n = true <-> a = b).
Proof.
  intros Ha Hb. unfold memcmp_eq.
  rewrite !firstn_all2 by (rewrite ?Ha, ?Hb; apply Nat.le_refl).
  apply bytes_eqb_eq.
Qed.

Section Facts.

Context {X : externals}.

Lemma has_length_spec (field : option bytes) (n : nat) :
  has_length field n = true <-> exists b, field = Some b /\ length b = n.
Proof.
  destruct field as [b|]; cbn.
  - rewrite Nat.eqb_eq. split; [now exists b|]. now intros (? & [= <-] & ?).
  - split; [discriminate|]. now intros (? & ? & ?).
Qed.

(** What [check_message_fields] establishes. *)
Lemma check_message_fields_spec (reader : PreKeyMessageReader) (have : bool) :
  check_message_fields reader have = true <->
  (have = true \/ identity_key reader <> None)
  /\ (forall ik, identity_key reader = Some ik -> length ik = KEY_LENGTH)
  /\ message reader <> None
  /\ (exists bk, base_key reader = Some bk /\ length bk = KEY_LENGTH)
  /\ (exists otk, one_time_key reader = Some otk /\ length otk = KEY_LENGTH).
Proof.
  unfold check_message_fields.
  destruct reader as [ik bk otk m]; cbn [identity_key base_key one_time_key message].
  destruct ik as [ik|], m as [m|], bk as [bk|], otk as [otk|], have;
    cbn [non_null has_length andb orb];
    rewrite ?andb_true_iff, ?andb_false_r, ?Nat.eqb_eq;
    split; intros H;
    repeat match goal with
           | H : _ /\ _ |- _ => destruct H
           | H : exists _, _ |- _ => destruct H
           | H : _ \/ _ |- _ => destruct H
           | H : Some _ = Some _ |- _ => injection H as H; subst
           end;
    try discriminate; try congruence;
    repeat split; eauto; try discriminate; try congruence;
    try (intros ? [= <-]; assumption);
    try (left; discriminate); try (right; discriminate);
    try (now left).
Qed.

(** C7. On a session whose key arrays hold 32 bytes each,
    [matches_inbound_session] returns true exactly when the envelope has its
    fields and the identity, base and one-time keys are byte for byte those
    the session stores, the identity key being checked on the field of the
    envelope when there is one and on the expected key when the caller gives
    one; and the session after the call is the session before it,
    [last_error] included. *)
Theorem matches_inbound_session_spec
    (their_identity_key : option Curve25519PublicKey)
    (one_time_key_message : bytes) (s : Session) :
  keys_ok s ->
  (forall k, their_identity_key = Some k -> key_ok k) ->
  fst (matches_inbound_session their_identity_key one_time_key_message s) = s
  /\ (snd (matches_inbound_session their_identity_key one_time_key_message s) = true
      <-> envelope_matches their_identity_key
            (decode_one_time_key_message one_time_key_message) s).
Proof.
  intros (Hia & Hea & Heb) Hth. unfold key_ok in *.
  unfold matches_inbound_session, envelope_matches.
  set (reader := decode_one_time_key_message one_time_key_message).
  destruct (check_message_fields reader (non_null their_identity_key)) eqn:Hc;
    cbn [negb fst snd].
  - split; [reflexivity|].
    apply check_message_fields_spec in Hc.
    destruct Hc as (Hid & Hikl & Hm & (bk & Hbk & Hbkl) & (otk & Hotk & Hotkl)).
    rewrite Hbk, Hotk.
    destruct (identity_key reader) as [ik|] eqn:Hik;
      destruct their_identity_key as [k|];
      cbn [andb]; rewrite ?andb_true_iff;
      try specialize (Hikl _ eq_refl); try specialize (Hth _ eq_refl);
      rewrite ?(memcmp_eq_iff bk _ _ Hbkl Hea), ?(memcmp_eq_iff otk _ _ Hotkl Heb);
      try rewrite (memcmp_eq_iff ik _ _ Hikl Hia);
      try rewrite (memcmp_eq_iff (public_key k) _ _ Hth Hia).
    + split.
      * intros [[[-> Hk] ->] ->]. repeat split; auto.
        now intros k' [= <-].
      * intros (_ & [= ->] & [= ->] & [[= ->]|[[=] _]] & Hk).
        repeat split; auto.
    + split.
      * intros [[-> ->] ->]. repeat split; auto. discriminate.
      * intros (_ & [= ->] & [= ->] & [[= ->]|[[=] _]] & _).
        repeat split; auto.
    + split.
      * intros [[Hk ->] ->]. repeat split; auto.
        -- right. split; [reflexivity|discriminate].
        -- now intros k' [= <-].
      * intros (_ & [= ->] & [= ->] & _ & Hk).
        repeat split; auto.
    + destruct Hid as [[=]|Hid]. now elim Hid.
  - split; [reflexivity|].
    split; [discriminate|].
    intros (Hm & Hbk & Hotk & Hid & Hk).
    assert (check_message_fields reader (non_null their_identity_key) = true)
      as Hc'; [|congruence].
    apply check_message_fields_spec. repeat split.
    + destruct Hid as [Hid|[_ Hid]].
      * right. rewrite Hid. discriminate.
      * left. now destruct their_identity_key.
    + intros ik Hik. destruct Hid as [Hid|[Hid _]]; [|congruence].
      rewrite Hid in Hik. now injection Hik as <-.
    + exact Hm.
    + eauto.
    + eauto.
Qed.

(** C5. With at least 64 random bytes, [new_outbound_session] succeeds:
    with Ia the Curve25519 identity pair of the account, Ea the pair
    generated from the first 32 random bytes and T0 the pair generated from
    the next 32, the ratchet is initialised as Alice with the secret
    DH(Ia, Eb) || DH(Ea, Ib) || DH(Ea, Eb), in that order, and the ratchet
    key T0; the session stores the public keys of Ia and Ea and the key Eb;
    [received_message] is false. The secret is 96 bytes long when the
    Diffie-Hellman writes 32 bytes. With fewer than 64 random bytes the call
    fails with [NOT_ENOUGH_RANDOM]. *)
Theorem new_outbound_session_spec (local_account : Account)
    (Ib Eb : Curve25519PublicKey) (random : bytes) (s : Session) :
  let Ia := identity_keys_curve25519_key local_account in
  let Ea := curve25519_generate_key (firstn 32 random) in
  let T0 := curve25519_generate_key (firstn 32 (skipn 32 random)) in
  let secret :=
    curve25519_shared_secret Ia Eb
    ++ curve25519_shared_secret Ea Ib
    ++ curve25519_shared_secret Ea Eb in
  (64 <= length random ->
   new_outbound_session local_account Ib Eb random s =
   ({| ratchet := initialise_as_alice (ratchet s) secret T0;
       last_error := last_error s;
       received_message := false;
       alice_identity_key := public_part Ia;
       alice_base_key := public_part Ea;
       bob_one_time_key := Eb |}, Some 0)
   /\ ((forall our their,
          length (curve25519_shared_secret our their) = KEY_LENGTH) ->
       length secret = 96))
  /\ (length random < 64 ->
      new_outbound_session local_account Ib Eb random s =
      (with_last_error NOT_ENOUGH_RANDOM s, None)).
Proof.
  intros Ia Ea T0 secret. unfold new_outbound_session.
  change new_outbound_session_random_length with 64.
  split.
  - intros H. apply Nat.ltb_ge in H. rewrite H. split; [reflexivity|].
    intros L. unfold secret. rewrite !length_app, !L. reflexivity.
  - intros H. apply Nat.ltb_lt in H. now rewrite H.
Qed.

Lemma step_triple (c : call) (s : Session) : triple (step c s) = triple s.
Proof.
  destruct c; cbn [step]; try reflexivity.
  - unfold session_id. now destruct (Nat.ltb _ _).
  - unfold matches_inbound_session. now destruct (negb _).
  - unfold encrypt_message_type. now destruct (received_message s).
  - unfold encrypt_message_length. now destruct (received_message s).
  - unfold encrypt. destruct (Nat.ltb _ _); [reflexivity|].
    destruct (ratchet_encrypt _ _ _ _) as [r [body|]]; [|reflexivity].
    cbn [with_ratchet received_message]. now destruct (received_message s).
  - unfold decrypt_max_plaintext_length.
    destruct (message_body_of _ _); [|reflexivity].
    now destruct (ratchet_decrypt_max_plaintext_length _ _) as [r [n|]].
  - unfold decrypt. destruct (message_body_of _ _); [|reflexivity].
    now destruct (ratchet_decrypt _ _ _) as [r [plaintext|]].
Qed.

Lemma run_triple (calls : list call) (s : Session) :
  triple (run calls s) = triple s.
Proof.
  revert s. induction calls as [|c calls IH]; intros s; cbn [run].
  - reflexivity.
  - now rewrite IH, step_triple.
Qed.

Lemma session_id_of_triple (id_length : nat) (s : Session) :
  SHA256_OUTPUT_LENGTH <= id_length ->
  session_id id_length s =
  (s, (Some 32,
       sha256 (let '(ia, ea, eb) := triple s in ia ++ ea ++ eb))).
Proof.
  intros H. unfold session_id, session_id_length.
  apply Nat.ltb_ge in H. rewrite H.
  unfold store_array, triple. cbn [app]. now rewrite <- app_assoc.
Qed.

(** C6. Given room for 32 bytes, [session_id] returns 32 and writes
    SHA-256 (alice_identity_key || alice_base_key || bob_one_time_key) of the
    public keys the session stores, 32 bytes when the digest has its
    length, and leaves the session as it was. The same call gives the same
    bytes again, also after any run of calls on the session, and two
    sessions that store the same triple get the same identifier. *)
Theorem session_id_spec (id_length : nat) (s : Session) :
  SHA256_OUTPUT_LENGTH <= id_length ->
  session_id id_length s =
  (s, (Some 32,
       sha256 (public_key (alice_identity_key s)
               ++ public_key (alice_base_key s)
               ++ public_key (bob_one_time_key s))))
  /\ ((forall input, length (sha256 input) = SHA256_OUTPUT_LENGTH) ->
      length (snd (snd (session_id id_length s))) = 32)
  /\ session_id id_length (fst (session_id id_length s)) = session_id id_length s
  /\ (forall calls,
        snd (session_id id_length (run calls s)) = snd (session_id id_length s))
  /\ (forall other other_length,
        SHA256_OUTPUT_LENGTH <= other_length ->
        triple other = triple s ->
        snd (session_id other_length other) = snd (session_id id_length s)).
Proof.
  intros H. pose proof (session_id_of_triple id_length s H) as E.
  split; [exact E|].
  split; [intros L; rewrite E; apply L|].
  split; [now rewrite E|]. split.
  - intros calls. rewrite E, (session_id_of_triple id_length (run calls s) H).
    cbn [snd]. now rewrite run_triple.
  - intros other n Hn Ht. rewrite E, (session_id_of_triple n other Hn).
    cbn [snd]. now rewrite Ht.
Qed.

Lemma step_received_message (c : call) (s : Session) :
  received_message (step c s) = received_message s || decrypt_succeeds c s.
Proof.
  destruct c; cbn [step decrypt_succeeds]; rewrite ?orb_false_r; try reflexivity.
  - unfold session_id. now destruct (Nat.ltb _ _).
  - unfold matches_inbound_session. now destruct (negb _).
  - unfold encrypt_message_type. now destruct (received_message s) eqn:E.
  - unfold encrypt_message_length. now destruct (received_message s) eqn:E.
  - unfold encrypt. destruct (Nat.ltb _ _); [reflexivity|].
    destruct (ratchet_encrypt _ _ _ _) as [r [body|]]; [|reflexivity].
    cbn [with_ratchet received_message].
    now destruct (received_message s) eqn:E.
  - unfold decrypt_max_plaintext_length.
    destruct (message_body_of _ _); [|reflexivity].
    now destruct (ratchet_decrypt_max_plaintext_length _ _) as [r [n|]].
  - unfold decrypt. destruct (message_body_of _ _);
      [|cbn; now rewrite orb_false_r].
    destruct (ratchet_decrypt _ _ _) as [r [plaintext|]]; cbn.
    + now rewrite orb_true_r.
    + now rewrite orb_false_r.
Qed.

Lemma run_received_message (calls : list call) (s : Session) :
  received_message (run calls s)
  = received_message s || some_decrypt_succeeds calls s.
Proof.
  revert s. induction calls as [|c calls IH]; intros s;
    cbn [run some_decrypt_succeeds].
  - now rewrite orb_false_r.
  - now rewrite IH, step_received_message, orb_assoc.
Qed.

(** C8. A session starts with [received_message] false: the constructor
    sets it so, [new_outbound_session] sets it so, [new_inbound_session]
    leaves it. A call changes it only by setting it, and only a [decrypt]
    that returns a plaintext does: after a run of calls it is true exactly
    when it was true before or some [decrypt] of the run succeeded, so it
    never goes back to false and a failed [decrypt] leaves it. And
    [encrypt_message_type] returns [MESSAGE] when it is true and [PRE_KEY]
    when it is false. *)
Theorem received_message_monotone (calls : list call) (s : Session) :
  (forall fresh ia ea eb, received_message (Session_ctor fresh ia ea eb) = false)
  /\ (forall account Ib Eb random,
        64 <= length random ->
        received_message (fst (new_outbound_session account Ib Eb random s)) = false)
  /\ (forall account their msg s',
        new_inbound_session account their msg s = returns s' (Some 0) ->
        received_message s' = received_message s)
  /\ (forall c, received_message (step c s)
                = received_message s || decrypt_succeeds c s)
  /\ received_message (run calls s)
     = received_message s || some_decrypt_succeeds calls s
  /\ snd (encrypt_message_type (run calls s))
     = (if received_message s || some_decrypt_succeeds calls s
        then MESSAGE else PRE_KEY)
  /\ fst (encrypt_message_type (run calls s)) = run calls s.
Proof.
  split; [reflexivity|]. split.
  { intros account Ib Eb random H. unfold new_outbound_session.
    change new_outbound_session_random_length with 64.
    apply Nat.ltb_ge in H. now rewrite H. }
  split.
  { intros account their msg s'. unfold new_inbound_session.
    destruct (decode_one_time_key_message msg) as [ik bk otk m].
    cbn [identity_key base_key one_time_key message].
    destruct (negb (check_message_fields _ _)); [discriminate|].
    destruct (negb _); [discriminate|].
    destruct ik, bk, otk, m; try discriminate.
    destruct (ratchet_key _); [|discriminate].
    destruct (negb _); [discriminate|].
    destruct (lookup_key _ _); [|discriminate].
    now intros [= <-]. }
  split; [intros c; apply step_received_message|].
  split; [apply run_received_message|].
  unfold encrypt_message_type. rewrite <- run_received_message.
  now destruct (received_message (run calls s)) eqn:E.
Qed.

Lemma load_array_whole (b : bytes) :
  length b = KEY_LENGTH -> load_array b = {| public_key := b |}.
Proof.
  intros H. unfold load_array. f_equal.
  apply firstn_all2. rewrite H. apply Nat.le_refl.
Qed.

(** C10. [new_inbound_session] leaves the stored triple when it fails
    before loading the keys: [BAD_MESSAGE_FORMAT] from
    [check_message_fields], [BAD_MESSAGE_KEY_ID] from an identity key that
    is not the expected one. Past these two checks it stores the identity,
    base and one-time keys of the message, and only then looks at the
    embedded message and at the one-time keys of the account: when it fails
    there, with [BAD_MESSAGE_FORMAT] on the embedded ratchet key or
    [BAD_MESSAGE_KEY_ID] on an unknown one-time key, the session holds the
    triple of the message and no longer the one it had. *)
Theorem new_inbound_session_triple (local_account : Account)
    (their_identity_key : option Curve25519PublicKey)
    (one_time_key_message : bytes) (s : Session) :
  let reader := decode_one_time_key_message one_time_key_message in
  let outcome :=
    new_inbound_session local_account their_identity_key one_time_key_message s in
  (check_message_fields reader (non_null their_identity_key) = false ->
   outcome = returns (with_last_error BAD_MESSAGE_FORMAT s) None
   /\ triple (with_last_error BAD_MESSAGE_FORMAT s) = triple s)
  /\
  (forall ik k,
     check_message_fields reader (non_null their_identity_key) = true ->
     identity_key reader = Some ik ->
     their_identity_key = Some k ->
     memcmp_eq (public_key k) ik KEY_LENGTH = false ->
     outcome = returns (with_last_error BAD_MESSAGE_KEY_ID s) None
     /\ triple (with_last_error BAD_MESSAGE_KEY_ID s) = triple s)
  /\
  (forall ik bk otk inner,
     check_message_fields reader (non_null their_identity_key) = true ->
     identity_key reader = Some ik ->
     base_key reader = Some bk ->
     one_time_key reader = Some otk ->
     message reader = Some inner ->
     (forall k, their_identity_key = Some k ->
                memcmp_eq (public_key k) ik KEY_LENGTH = true) ->
     let loaded :=
       with_keys {| public_key := ik |} {| public_key := bk |}
                 {| public_key := otk |} s in
     let reader_ratchet_key :=
       ratchet_key (decode_message inner (ratchet_cipher_mac_length (ratchet s))) in
     (has_length reader_ratchet_key KEY_LENGTH = false ->
      outcome = returns (with_last_error BAD_MESSAGE_FORMAT loaded) None
      /\ triple (with_last_error BAD_MESSAGE_FORMAT loaded) = (ik, bk, otk))
     /\
     (has_length reader_ratchet_key KEY_LENGTH = true ->
      lookup_key local_account {| public_key := otk |} = None ->
      outcome = returns (with_last_error BAD_MESSAGE_KEY_ID loaded) None
      /\ triple (with_last_error BAD_MESSAGE_KEY_ID loaded) = (ik, bk, otk))).
Proof.
  intros reader outcome. unfold outcome, new_inbound_session. fold reader.
  split; [|split].
  - intros Hc. rewrite Hc. cbn [negb]. now split.
  - intros ik k Hc Hik -> Hm. rewrite Hc, Hik, Hm. cbn [negb]. now split.
  - intros ik bk otk inner Hc Hik Hbk Hotk Hin Hsame. cbv zeta.
    rewrite Hc, Hik, Hbk, Hotk, Hin. cbn [negb].
    assert (Hs : match their_identity_key with
                 | Some k => memcmp_eq (public_key k) ik KEY_LENGTH
                 | None => true
                 end = true).
    { destruct their_identity_key as [k|]; [now apply Hsame|reflexivity]. }
    rewrite Hs. cbn [negb].
    apply check_message_fields_spec in Hc.
    destruct Hc as (_ & Hikl & _ & (bk' & Hbk' & Hbkl) & (otk' & Hotk' & Hotkl)).
    rewrite Hbk in Hbk'. injection Hbk' as <-.
    rewrite Hotk in Hotk'. injection Hotk' as <-.
    rewrite (load_array_whole ik (Hikl _ Hik)), (load_array_whole bk Hbkl),
      (load_array_whole otk Hotkl).
    cbn [ratchet with_keys bob_one_time_key].
    destruct (ratchet_key
                (decode_message inner (ratchet_cipher_mac_length (ratchet s))))
      as [b|]; cbn [has_length].
    + split.
      * intros Hrk. rewrite Hrk. now split.
      * intros Hrk Hlk. rewrite Hrk. cbn [negb]. rewrite Hlk. now split.
    + split; [now split|discriminate].
Qed.

End Facts.

(** ** Runs of the code on the sample instance *)

Lemma xor_bytes_length (a b : bytes) :
  length (Sample.xor_bytes a b) = Nat.min (length a) (length b).
Proof.
  revert b. induction a as [|x a IH]; intros [|y b]; cbn; auto.
Qed.

Lemma pad32_length (b : bytes) : length (Sample.pad32 b) = 32.
Proof.
  unfold Sample.pad32. rewrite length_firstn, length_app, repeat_length.
  apply Nat.min_l, Nat.le_add_l.
Qed.

Lemma toy_shared_secret_length our their :
  length (Sample.toy_shared_secret our their) = KEY_LENGTH.
Proof.
  unfold Sample.toy_shared_secret.
  now rewrite xor_bytes_length, !pad32_length.
Qed.

Lemma new_outbound_session_spec_witness :
  new_outbound_session (X := Sample.session) Sample.alice_account
    (public_part (identity_keys_curve25519_key Sample.bob_account))
    (public_part (key Sample.bob_one_time_key))
    Sample.random_64 Sample.constructed
  = (Sample.alice_session, Some 0)
  /\ core (ratchet Sample.alice_session)
     = repeat x04 32 ++ repeat x0a 32 ++ repeat x0f 32
  /\ length (core (ratchet Sample.alice_session)) = 96
  /\ new_outbound_session (X := Sample.session) Sample.alice_account
       (public_part (identity_keys_curve25519_key Sample.bob_account))
       (public_part (key Sample.bob_one_time_key))
       (repeat x01 63) Sample.constructed
     = (with_last_error NOT_ENOUGH_RANDOM Sample.constructed, None).
Proof.
  destruct (new_outbound_session_spec (X := Sample.session)
              Sample.alice_account
              (public_part (identity_keys_curve25519_key Sample.bob_account))
              (public_part (key Sample.bob_one_time_key))
              Sample.random_64 Sample.constructed) as [[E L] _];
    [by_running|].
  destruct (new_outbound_session_spec (X := Sample.session)
              Sample.alice_account
              (public_part (identity_keys_curve25519_key Sample.bob_account))
              (public_part (key Sample.bob_one_time_key))
              (repeat x01 63) Sample.constructed) as [_ F].
  split; [|split; [|split]].
  - rewrite E. by_running.
  - by_running.
  - exact (L toy_shared_secret_length).
  - apply F. by_running.
Defined.

Lemma toy_digest_length (fuel : nat) (acc input : bytes) :
  length acc = 32 -> length (Sample.toy_digest fuel acc input) = 32.
Proof.
  revert acc input.
  induction fuel as [|fuel IH]; intros acc input H; cbn [Sample.toy_digest].
  - exact H.
  - destruct input as [|x input]; [exact H|].
    apply IH.
    rewrite length_map, xor_bytes_length, H, length_firstn, length_app,
      repeat_length.
    cbn [length]. lia.
Qed.

Lemma toy_sha256_length (input : bytes) :
  length (Sample.toy_sha256 input) = SHA256_OUTPUT_LENGTH.
Proof. apply toy_digest_length, repeat_length. Qed.

Lemma session_id_spec_witness :
  session_id (X := Sample.session) 32 Sample.alice_session
  = (Sample.alice_session, (Some 32, repeat x6f 32))
  /\ length (snd (snd (session_id (X := Sample.session) 32
                         Sample.alice_session))) = 32
  /\ snd (session_id (X := Sample.session) 40 Sample.bob_session)
     = snd (session_id (X := Sample.session) 32 Sample.alice_session).
Proof.
  destruct (session_id_spec (X := Sample.session) 32
              Sample.alice_session (Nat.le_refl 32)) as (E & L & _ & _ & O).
  split; [|split].
  - rewrite E. by_running.
  - exact (L toy_sha256_length).
  - apply O; [by_running|by_running].
Defined.

Lemma matches_inbound_session_spec_witness :
  matches_inbound_session (X := Sample.session) None Sample.pre_key_message
    Sample.bob_session
  = (Sample.bob_session, true).
Proof.
  destruct (matches_inbound_session_spec (X := Sample.session) None
              Sample.pre_key_message Sample.bob_session) as [S M].
  - vm_compute. repeat split.
  - discriminate.
  - rewrite (surjective_pairing (matches_inbound_session _ _ _)), S.
    apply f_equal, M.
    vm_compute. repeat split; try discriminate.
    left. reflexivity.
Defined.

Lemma received_message_monotone_witness :
  let calls :=
    [call_decrypt PRE_KEY Sample.pre_key_message_forged 100;
     call_encrypt_message_type;
     call_decrypt PRE_KEY Sample.pre_key_message 100;
     call_decrypt PRE_KEY Sample.pre_key_message_forged 100] in
  received_message Sample.bob_session = false
  /\ received_message
       (step (X := Sample.session)
             (call_decrypt PRE_KEY Sample.pre_key_message_forged 100)
             Sample.bob_session) = false
  /\ received_message (run (X := Sample.session) calls Sample.bob_session) = true
  /\ received_message
       (fst (new_outbound_session (X := Sample.session) Sample.alice_account
               (public_part (identity_keys_curve25519_key Sample.bob_account))
               (public_part (key Sample.bob_one_time_key)) Sample.random_64
               (run (X := Sample.session) calls Sample.bob_session))) = false.
Proof.
  intros calls.
  pose proof (received_message_monotone (X := Sample.session) calls
                Sample.bob_session) as (_ & _ & _ & S & R & _).
  pose proof (received_message_monotone (X := Sample.session) []
                (run (X := Sample.session) calls Sample.bob_session))
    as (_ & N & _).
  split; [by_running|]. split; [|split].
  - rewrite S. by_running.
  - rewrite R. by_running.
  - apply N. by_running.
Defined.

Lemma new_inbound_session_triple_witness :
  triple Sample.bob_earlier = (repeat x11 32, repeat x22 32, repeat x33 32)
  /\ (exists s',
        new_inbound_session (X := Sample.session) Sample.bob_account None
          Sample.pre_key_message_no_ratchet_key Sample.bob_earlier
        = returns s' None
        /\ last_error s' = BAD_MESSAGE_FORMAT
        /\ triple s' = (repeat x5f 32, repeat x54 32, repeat x5b 32))
  /\ (exists s',
        new_inbound_session (X := Sample.session) Sample.bob_account None
          Sample.pre_key_message_unknown_key Sample.bob_earlier
        = returns s' None
        /\ last_error s' = BAD_MESSAGE_KEY_ID
        /\ triple s' = (repeat x5f 32, repeat x54 32, repeat x77 32)).
Proof.
  split; [by_running|]. split.
  - pose proof (new_inbound_session_triple (X := Sample.session)
                  Sample.bob_account None
                  Sample.pre_key_message_no_ratchet_key Sample.bob_earlier)
      as (_ & _ & L).
    destruct (L (repeat x5f 32) (repeat x54 32) (repeat x5b 32)
                [x03; x22; x00; x00; x00; x00; x00; x00; x00; x00; x00])
      as [[E T] _]; try (by_running); try discriminate.
    eexists. split; [exact E|]. split; [reflexivity|exact T].
  - pose proof (new_inbound_session_triple (X := Sample.session)
                  Sample.bob_account None
                  Sample.pre_key_message_unknown_key Sample.bob_earlier)
      as (_ & _ & L).
    destruct (L (repeat x5f 32) (repeat x54 32) (repeat x77 32)
                (skipn 105 Sample.pre_key_message))
      as [_ K]; try (by_running); try discriminate.
    destruct K as [E T]; try (by_running).
    eexists. split; [exact E|]. split; [reflexivity|exact T].
Defined.

End SessionFacts.

(** * More facts about inbound_group_session.c *)

Module InboundGroupSessionMore.

Import InboundGroupSession.

Section Facts.

Context {X : externals} {P : pickle_externals}.

Lemma _decrypt_ratchets s message max :
  let s' := fst (_decrypt s message max) in
  let d := _olm_decode_group_message message
             (mac_length (olm_cipher := megolm_cipher)) in
  initial_ratchet s' = initial_ratchet s
  /\ (latest_ratchet s' = latest_ratchet s
      \/ exists ct,
           well_formed d ct max
           /\ (u32_sub (message_index d) (counter (latest_ratchet s)) < 2 ^ 31)%Z
           /\ latest_ratchet s'
              = megolm_advance_to (latest_ratchet s) (message_index d)).
Proof.
  intros s' d. subst s'. unfold _decrypt. fold d.
  destruct (version d =? OLM_PROTOCOL_VERSION)%Z eqn:Hv; cbn [negb];
    [|split; [reflexivity|now left]].
  destruct (has_message_index d) eqn:Hi; [|split; [reflexivity|now left]].
  destruct (session_id d) as [sid|] eqn:Hs; [|split; [reflexivity|now left]].
  destruct (ciphertext d) as [ct|] eqn:Hc; [|split; [reflexivity|now left]].
  destruct (Nat.ltb max _) eqn:Hm; [split; [reflexivity|now left]|].
  unfold pick_megolm.
  destruct (u32_sub (message_index d) (counter (latest_ratchet s)) <? 2 ^ 31)%Z
    eqn:Hl.
  - cbn [advance_through].
    assert (W : well_formed d ct max).
    { unfold well_formed. rewrite Hi, Hs, Hc.
      repeat split; [now apply Z.eqb_eq|discriminate|now apply Nat.ltb_ge]. }
    apply Z.ltb_lt in Hl.
    destruct (decrypt _ _ _ _); cbn [fst]; (split; [reflexivity|]);
      right; exists ct; auto.
  - destruct (u32_sub (message_index d) (counter (initial_ratchet s)) >=? 2 ^ 31)%Z;
      [split; [reflexivity|now left]|].
    cbn [advance_through].
    destruct (decrypt _ _ _ _); cbn [fst]; split; try reflexivity; now left.
Qed.

(** X1. Whatever the message and whatever the outcome, [olm_group_decrypt]
    leaves the initial ratchet; and it leaves the latest ratchet too, unless
    the message is well formed with an index at or beyond the latest ratchet,
    in which case the latest ratchet is that ratchet advanced to the index.
    So the initial ratchet is the same after any sequence of calls. *)
Theorem group_decrypt_ratchets s message max :
  let s' := fst (olm_group_decrypt s message max) in
  initial_ratchet s' = initial_ratchet s
  /\ (latest_ratchet s' = latest_ratchet s
      \/ exists n raw ct,
           _olm_decode_base64 message = (Some n, raw)
           /\ let d := _olm_decode_group_message (firstn n raw)
                         (mac_length (olm_cipher := megolm_cipher)) in
              well_formed d ct max
              /\ (u32_sub (message_index d) (counter (latest_ratchet s))
                  < 2 ^ 31)%Z
              /\ latest_ratchet s'
                 = megolm_advance_to (latest_ratchet s) (message_index d))
  /\ (forall messages,
        initial_ratchet (decrypt_all messages s) = initial_ratchet s).
Proof.
  assert (I : forall t m k,
             initial_ratchet (fst (olm_group_decrypt t m k)) = initial_ratchet t).
  { intros t m k. unfold olm_group_decrypt.
    destruct (_olm_decode_base64 m) as [[n|] raw]; [|reflexivity].
    apply _decrypt_ratchets. }
  cbv zeta. split; [apply I|]. split.
  - unfold olm_group_decrypt.
    destruct (_olm_decode_base64 message) as [[n|] raw] eqn:Hb; [|now left].
    destruct (_decrypt_ratchets s (firstn n raw) max) as [_ [H|(ct & W & L & A)]].
    + now left.
    + right. exists n, raw, ct. auto.
  - intros messages. revert s.
    induction messages as [|[m k] messages IH]; intros s; cbn [decrypt_all].
    + reflexivity.
    + now rewrite IH, I.
Qed.

(** X2. [olm_group_decrypt] writes [last_error] only when it fails: a call
    that returns a plaintext leaves [last_error] as it was, whatever it held,
    and a call that returns the error value leaves one of the six codes
    [OLM_INVALID_BASE64], [OLM_BAD_MESSAGE_VERSION], [OLM_BAD_MESSAGE_FORMAT],
    [OLM_OUTPUT_BUFFER_TOO_SMALL], [OLM_UNKNOWN_MESSAGE_INDEX],
    [OLM_BAD_MESSAGE_MAC]. *)
Theorem group_decrypt_last_error s message max :
  let r := olm_group_decrypt s message max in
  (forall plaintext, snd r = Some plaintext -> last_error (fst r) = last_error s)
  /\ (snd r = None ->
      In (last_error (fst r))
         [OLM_INVALID_BASE64; OLM_BAD_MESSAGE_VERSION; OLM_BAD_MESSAGE_FORMAT;
          OLM_OUTPUT_BUFFER_TOO_SMALL; OLM_UNKNOWN_MESSAGE_INDEX;
          OLM_BAD_MESSAGE_MAC]).
Proof.
  cbv zeta. unfold olm_group_decrypt.
  destruct (_olm_decode_base64 message) as [[n|] raw];
    [|split; [discriminate|intros _; cbn; tauto]].
  unfold _decrypt.
  set (d := _olm_decode_group_message _ _).
  destruct (negb (version d =? OLM_PROTOCOL_VERSION)%Z);
    [split; [discriminate|intros _; cbn; tauto]|].
  destruct (has_message_index d);
    [|split; [discriminate|intros _; cbn; tauto]].
  destruct (session_id d); [|split; [discriminate|intros _; cbn; tauto]].
  destruct (ciphertext d) as [ct|];
    [|split; [discriminate|intros _; cbn; tauto]].
  destruct (Nat.ltb max _); [split; [discriminate|intros _; cbn; tauto]|].
  destruct (pick_megolm s (message_index d)) as [[|tmp]|];
    [| |split; [discriminate|intros _; cbn; tauto]];
    cbn [advance_through]; destruct (decrypt _ _ _ _);
    (split;
     [intros ? H; first [discriminate H|reflexivity]
     |intros H; first [discriminate H|cbn; tauto]]).
Qed.

(** X3. When [olm_group_decrypt_max_plaintext_length] returns a length, it
    has left the session as it was, and [olm_group_decrypt] on the same
    message with a buffer of at least that length never fails for lack of
    room: either the message is well formed for that buffer, so that the
    outcome is decided by the ratchets and the cipher, or it lacks its index
    or session id, which the length query does not look at, and the call
    fails with [OLM_BAD_MESSAGE_FORMAT]. *)
Theorem group_decrypt_max_plaintext_length_suffices s message n max :
  snd (olm_group_decrypt_max_plaintext_length s message) = Some n ->
  n <= max ->
  fst (olm_group_decrypt_max_plaintext_length s message) = s
  /\ (olm_group_decrypt s message max
      = (set_last_error OLM_BAD_MESSAGE_FORMAT s, None)
      \/ exists k raw ct,
           _olm_decode_base64 message = (Some k, raw)
           /\ well_formed (_olm_decode_group_message (firstn k raw)
                             (mac_length (olm_cipher := megolm_cipher))) ct max
           /\ n = decrypt_max_plaintext_length (olm_cipher := megolm_cipher)
                    (length ct)).
Proof.
  unfold olm_group_decrypt_max_plaintext_length, olm_group_decrypt.
  destruct (_olm_decode_base64 message) as [[k|] raw]; [|discriminate].
  unfold _decrypt_max_plaintext_length, _decrypt.
  set (d := _olm_decode_group_message _ _).
  destruct (version d =? OLM_PROTOCOL_VERSION)%Z eqn:Hv; cbn [negb];
    [|discriminate].
  destruct (ciphertext d) as [ct|] eqn:Hc; [|discriminate].
  cbn [fst snd]. intros [= <-] Hn. split; [reflexivity|].
  destruct (has_message_index d) eqn:Hi; [|now left].
  destruct (session_id d) as [sid|] eqn:Hs; [|now left].
  right. exists k, raw, ct. split; [reflexivity|]. split; [|reflexivity].
  fold d. unfold well_formed. rewrite Hi, Hs, Hc.
  repeat split; [now apply Z.eqb_eq|discriminate|exact Hn].
Qed.

(** X4. Pickling then unpickling restores the two ratchets. Let the
    container give back the raw bytes it was given, the integer unpickler
    read back the version and the ratchet unpickler read back each of the two
    ratchets, each leaving the bytes that follow. Then, given a buffer of
    [olm_pickle_inbound_group_session_length] bytes or more, pickling leaves
    the session as it was, and unpickling its output into any session
    returns the length of the pickle and gives that session the two ratchets
    of the pickled one; its [last_error] is not part of the pickle and stays
    what it was. *)
Theorem group_pickle_round_trip s target key pickled_length :
  let raw :=
    _olm_pickle_uint32 PICKLE_VERSION
    ++ megolm_pickle (initial_ratchet s) ++ megolm_pickle (latest_ratchet s) in
  let pickled := snd (_olm_enc_output key raw (raw_pickle_length s)) in
  olm_pickle_inbound_group_session_length s <= pickled_length ->
  (forall e, exists buffer,
     _olm_enc_input key pickled e = (Some (length raw), buffer, e)
     /\ firstn (length raw) buffer = raw) ->
  (forall rest,
     _olm_unpickle_uint32 (_olm_pickle_uint32 PICKLE_VERSION ++ rest)
     = (PICKLE_VERSION, rest)) ->
  (forall m rest,
     megolm_unpickle m (megolm_pickle (initial_ratchet s) ++ rest)
     = (initial_ratchet s, rest)) ->
  (forall m rest,
     megolm_unpickle m (megolm_pickle (latest_ratchet s) ++ rest)
     = (latest_ratchet s, rest)) ->
  olm_pickle_inbound_group_session s key pickled_length
  = (s, fst (_olm_enc_output key raw (raw_pickle_length s)), pickled)
  /\ olm_unpickle_inbound_group_session target key pickled
     = ({| initial_ratchet := initial_ratchet s;
           latest_ratchet := latest_ratchet s;
           last_error := last_error target |}, Some (length pickled)).
Proof.
  intros raw pickled Hroom Henc Hver Hini Hlat. split.
  - unfold olm_pickle_inbound_group_session.
    unfold olm_pickle_inbound_group_session_length in Hroom.
    apply Nat.ltb_ge in Hroom. rewrite Hroom. cbn [app].
    rewrite <- app_assoc. fold raw.
    unfold pickled. now destruct (_olm_enc_output key raw (raw_pickle_length s)).
  - unfold olm_unpickle_inbound_group_session.
    destruct (Henc (last_error target)) as (buffer & E & F).
    rewrite E, F. unfold raw at 1. rewrite Hver, Z.eqb_refl. cbn [negb].
    cbn [initial_ratchet latest_ratchet set_last_error set_initial_ratchet
         set_latest_ratchet].
    rewrite Hini.
    replace (megolm_pickle (latest_ratchet s))
      with (megolm_pickle (latest_ratchet s) ++ []) by apply app_nil_r.
    rewrite Hlat. reflexivity.
Qed.

(** X5. How [olm_unpickle_inbound_group_session] ends. A success returns
    the length of the pickle. A failure that has changed a ratchet of the
    session is a failure with [OLM_CORRUPTED_PICKLE]. In detail: when the
    container does not open, the session has the error code the container
    left and its ratchets; when the pickle has another version than 1, the
    call fails with [OLM_UNKNOWN_PICKLE_VERSION] and the ratchets are what
    they were; when bytes remain after the two ratchets, the call fails with
    [OLM_CORRUPTED_PICKLE], and the two ratchets of the session have already
    been overwritten with what was read. *)
Theorem group_unpickle_failures s key pickled :
  let r := olm_unpickle_inbound_group_session s key pickled in
  (forall k, snd r = Some k -> k = length pickled)
  /\
  (snd r = None ->
   initial_ratchet (fst r) <> initial_ratchet s
   \/ latest_ratchet (fst r) <> latest_ratchet s ->
   last_error (fst r) = OLM_CORRUPTED_PICKLE)
  /\
  (forall buffer e,
     _olm_enc_input key pickled (last_error s) = (None, buffer, e) ->
     r = ({| initial_ratchet := initial_ratchet s;
             latest_ratchet := latest_ratchet s;
             last_error := e |}, None))
  /\
  (forall n buffer e v pos,
     _olm_enc_input key pickled (last_error s) = (Some n, buffer, e) ->
     _olm_unpickle_uint32 (firstn n buffer) = (v, pos) ->
     v <> PICKLE_VERSION ->
     r = ({| initial_ratchet := initial_ratchet s;
             latest_ratchet := latest_ratchet s;
             last_error := OLM_UNKNOWN_PICKLE_VERSION |}, None))
  /\
  (forall n buffer e pos m1 pos1 m2 b pos2,
     _olm_enc_input key pickled (last_error s) = (Some n, buffer, e) ->
     _olm_unpickle_uint32 (firstn n buffer) = (PICKLE_VERSION, pos) ->
     megolm_unpickle (initial_ratchet s) pos = (m1, pos1) ->
     megolm_unpickle (latest_ratchet s) pos1 = (m2, b :: pos2) ->
     r = ({| initial_ratchet := m1;
             latest_ratchet := m2;
             last_error := OLM_CORRUPTED_PICKLE |}, None)).
Proof.
  cbv zeta. unfold olm_unpickle_inbound_group_session.
  split; [|split; [|split; [|split]]].
  - destruct (_olm_enc_input key pickled (last_error s)) as [[[n|] buffer] e];
      [|discriminate].
    destruct (_olm_unpickle_uint32 (firstn n buffer)) as [v pos].
    destruct (negb (v =? PICKLE_VERSION)%Z); [discriminate|].
    destruct (megolm_unpickle _ pos) as [m1 pos1].
    destruct (megolm_unpickle _ pos1) as [m2 [|b pos2]]; [|discriminate].
    now intros k [= <-].
  - destruct (_olm_enc_input key pickled (last_error s)) as [[[n|] buffer] e];
      [|intros _ [H|H]; now elim H].
    destruct (_olm_unpickle_uint32 (firstn n buffer)) as [v pos].
    destruct (negb (v =? PICKLE_VERSION)%Z); [intros _ [H|H]; now elim H|].
    destruct (megolm_unpickle _ pos) as [m1 pos1].
    destruct (megolm_unpickle _ pos1) as [m2 [|b pos2]]; [discriminate|].
    reflexivity.
  - intros buffer e E. now rewrite E.
  - intros n buffer e v pos E V Hv. rewrite E, V.
    apply Z.eqb_neq in Hv. now rewrite Hv.
  - intros n buffer e pos m1 pos1 m2 b pos2 E V M1 M2.
    rewrite E, V, Z.eqb_refl. cbn [negb].
    cbn [initial_ratchet latest_ratchet set_last_error set_initial_ratchet
         set_latest_ratchet].
    now rewrite M1, M2.
Qed.

End Facts.

(** ** Runs of the code on the sample instance *)

Lemma group_decrypt_last_error_witness :
  let stale := set_last_error OLM_BAD_MESSAGE_MAC (Sample.group_session 0 0) in
  last_error
    (fst (olm_group_decrypt (X := Sample.group) stale Sample.message_5 16))
  = OLM_BAD_MESSAGE_MAC
  /\ snd (olm_group_decrypt (X := Sample.group) stale Sample.message_5 16)
     = Some Sample.plaintext_5
  /\ In (last_error
           (fst (olm_group_decrypt (X := Sample.group)
                   (Sample.group_session 10 12) Sample.message_5 16)))
        [OLM_INVALID_BASE64; OLM_BAD_MESSAGE_VERSION; OLM_BAD_MESSAGE_FORMAT;
         OLM_OUTPUT_BUFFER_TOO_SMALL; OLM_UNKNOWN_MESSAGE_INDEX;
         OLM_BAD_MESSAGE_MAC].
Proof.
  intros stale.
  destruct (group_decrypt_last_error (X := Sample.group) stale
              Sample.message_5 16) as [S _].
  destruct (group_decrypt_last_error (X := Sample.group)
              (Sample.group_session 10 12) Sample.message_5 16) as [_ F].
  split; [|split].
  - apply (S Sample.plaintext_5). by_running.
  - by_running.
  - apply F. by_running.
Defined.

Lemma group_decrypt_max_plaintext_length_suffices_witness :
  olm_group_decrypt_max_plaintext_length (X := Sample.group)
    (Sample.group_session 0 0) Sample.message_5
  = (Sample.group_session 0 0, Some 3)
  /\ snd (olm_group_decrypt_max_plaintext_length (X := Sample.group)
            (Sample.group_session 0 0) Sample.message_5_no_session_id)
     = Some 3
  /\ olm_group_decrypt (X := Sample.group) (Sample.group_session 0 0)
       Sample.message_5_no_session_id 3
     = (set_last_error OLM_BAD_MESSAGE_FORMAT (Sample.group_session 0 0), None).
Proof.
  split; [|split].
  - destruct (group_decrypt_max_plaintext_length_suffices (X := Sample.group)
                (Sample.group_session 0 0) Sample.message_5 3 3) as [E _];
      [by_running|apply Nat.le_refl|].
    rewrite (surjective_pairing (olm_group_decrypt_max_plaintext_length _ _)), E.
    apply f_equal. by_running.
  - by_running.
  - destruct (group_decrypt_max_plaintext_length_suffices (X := Sample.group)
                (Sample.group_session 0 0) Sample.message_5_no_session_id 3 3)
      as [_ [E|(k & raw & ct & Hb & (_ & _ & W & _) & _)]];
      [by_running|apply Nat.le_refl|exact E|].
    exfalso. apply W. vm_compute in Hb. injection Hb as <- <-. by_running.
Defined.

Lemma group_pickle_round_trip_witness :
  olm_unpickle_inbound_group_session (P := Sample.group_pickle)
    (set_last_error OLM_BAD_MESSAGE_MAC Sample.cleared)
    Sample.pickle_key Sample.group_pickled
  = ({| initial_ratchet := Sample.ratchet_at 2;
        latest_ratchet := Sample.ratchet_at 12;
        last_error := OLM_BAD_MESSAGE_MAC |}, Some 276).
Proof.
  refine (proj2 (group_pickle_round_trip (P := Sample.group_pickle)
                   (Sample.group_session 2 12)
                   (set_last_error OLM_BAD_MESSAGE_MAC Sample.cleared)
                   Sample.pickle_key 300 _ _ _ _ _)).
  - by_running.
  - intros e. exists Sample.group_pickled. split; vm_compute; reflexivity.
  - intros rest. vm_compute. reflexivity.
  - intros m rest. vm_compute. reflexivity.
  - intros m rest. vm_compute. reflexivity.
Defined.

Lemma group_unpickle_failures_witness :
  olm_unpickle_inbound_group_session (P := Sample.group_pickle)
    Sample.cleared Sample.pickle_key Sample.group_pickled_version_2
  = ({| initial_ratchet := initial_ratchet Sample.cleared;
        latest_ratchet := latest_ratchet Sample.cleared;
        last_error := OLM_UNKNOWN_PICKLE_VERSION |}, None)
  /\ olm_unpickle_inbound_group_session (P := Sample.group_pickle)
       Sample.cleared Sample.pickle_key Sample.group_pickled_long
     = ({| initial_ratchet := Sample.ratchet_at 2;
           latest_ratchet := Sample.ratchet_at 12;
           last_error := OLM_CORRUPTED_PICKLE |}, None).
Proof.
  split.
  - destruct (group_unpickle_failures (P := Sample.group_pickle)
                Sample.cleared Sample.pickle_key
                Sample.group_pickled_version_2) as (_ & _ & _ & V & _).
    eapply V; [vm_compute; reflexivity|vm_compute; reflexivity|discriminate].
  - destruct (group_unpickle_failures (P := Sample.group_pickle)
                Sample.cleared Sample.pickle_key
                Sample.group_pickled_long) as (_ & _ & _ & _ & C).
    eapply C; vm_compute; reflexivity.
Defined.

End InboundGroupSessionMore.

(** * More facts about session.cpp *)

Module SessionMore.

Import olm.

Lemma bytes_eqb_refl (a : bytes) : bytes_eqb a a = true.
Proof. now apply SessionFacts.bytes_eqb_eq. Qed.

Lemma memcmp_eq_refl (a : bytes) (n : nat) : memcmp_eq a a n = true.
Proof. apply bytes_eqb_refl. Qed.

Section Facts.

Context {X : externals} {P : pickle_externals}.

(** Every call of [new_inbound_session] goes one of the ways above. *)
Lemma new_inbound_session_path local_account their_identity_key message s :
  inbound_path local_account their_identity_key
    (decode_one_time_key_message message) s
    (new_inbound_session local_account their_identity_key message s).
Proof.
  unfold new_inbound_session.
  set (reader := decode_one_time_key_message message).
  destruct (check_message_fields reader (non_null their_identity_key)) eqn:Hc;
    cbn [negb]; [|now apply path_fields].
  pose proof Hc as Hf. apply SessionFacts.check_message_fields_spec in Hf.
  destruct Hf as (_ & Hikl & Hm & (bk & Hbk & Hbkl) & (otk & Hotk & Hotkl)).
  destruct (identity_key reader) as [ik|] eqn:Hik.
  2:{ cbn [negb]. now apply path_null. }
  specialize (Hikl _ eq_refl).
  assert (S : forall k, their_identity_key = Some k ->
                        memcmp_eq (public_key k) ik KEY_LENGTH = false ->
                        inbound_path local_account their_identity_key reader s
                          (returns (with_last_error BAD_MESSAGE_KEY_ID s) None)).
  { intros k Hk Hs. eapply path_identity; eassumption. }
  destruct (olm.message reader) as [inner|] eqn:Hin; [|now elim Hm].
  rewrite Hbk, Hotk.
  rewrite (SessionFacts.load_array_whole ik Hikl),
    (SessionFacts.load_array_whole bk Hbkl),
    (SessionFacts.load_array_whole otk Hotkl).
  assert (L : forall outcome,
            (forall k, their_identity_key = Some k ->
                       memcmp_eq (public_key k) ik KEY_LENGTH = true) ->
            loaded_path local_account
              (with_keys {| public_key := ik |} {| public_key := bk |}
                         {| public_key := otk |} s)
              (ratchet_key (decode_message inner
                              (ratchet_cipher_mac_length (ratchet s))))
              outcome ->
            inbound_path local_account their_identity_key reader s outcome).
  { intros outcome Hs Hl.
    eapply path_loaded; eassumption. }
  assert (T : loaded_path local_account
                (with_keys {| public_key := ik |} {| public_key := bk |}
                           {| public_key := otk |} s)
                (ratchet_key (decode_message inner
                                (ratchet_cipher_mac_length (ratchet s))))
                match ratchet_key (decode_message inner
                                     (ratchet_cipher_mac_length (ratchet s))) with
                | None =>
                  returns (with_last_error BAD_MESSAGE_FORMAT
                             (with_keys {| public_key := ik |}
                                {| public_key := bk |} {| public_key := otk |} s))
                          None
                | Some t0 =>
                  if negb (Nat.eqb (length t0) KEY_LENGTH) then
                    returns (with_last_error BAD_MESSAGE_FORMAT
                               (with_keys {| public_key := ik |}
                                  {| public_key := bk |} {| public_key := otk |} s))
                            None
                  else
                    match lookup_key local_account {| public_key := otk |} with
                    | None =>
                      returns (with_last_error BAD_MESSAGE_KEY_ID
                                 (with_keys {| public_key := ik |}
                                    {| public_key := bk |}
                                    {| public_key := otk |} s))
                              None
                    | Some our =>
                      returns
                        (with_ratchet
                           (initialise_as_bob (ratchet s)
                              (curve25519_shared_secret (key our)
                                 {| public_key := ik |}
                               ++ curve25519_shared_secret
                                    (identity_keys_curve25519_key local_account)
                                    {| public_key := bk |}
                               ++ curve25519_shared_secret (key our)
                                    {| public_key := bk |})
                              (load_array t0))
                           (with_keys {| public_key := ik |}
                              {| public_key := bk |} {| public_key := otk |} s))
                        (Some 0)
                    end
                end).
  { destruct (ratchet_key _) as [t0|]; [|constructor].
    destruct (Nat.eqb (length t0) KEY_LENGTH) eqn:Ht; cbn [negb].
    - apply Nat.eqb_eq in Ht.
      rewrite (SessionFacts.load_array_whole t0 Ht).
      destruct (lookup_key local_account {| public_key := otk |}) as [our|] eqn:Hl.
      + exact (@path_success X local_account
                 (with_keys {| public_key := ik |} {| public_key := bk |}
                            {| public_key := otk |} s) t0 our Ht Hl).
      + exact (@path_unknown_key X local_account
                 (with_keys {| public_key := ik |} {| public_key := bk |}
                            {| public_key := otk |} s) t0 Ht Hl).
    - apply Nat.eqb_neq in Ht. now apply path_short_ratchet_key. }
  destruct their_identity_key as [k|].
  - destruct (memcmp_eq (public_key k) ik KEY_LENGTH) eqn:Hs; cbn [negb].
    + apply L; [now intros k' [= <-]|exact T].
    + now apply (S k).
  - cbn [negb]. apply L; [discriminate|exact T].
Qed.

Lemma new_inbound_session_accepted (local_account : Account)
    (their_identity_key : option Curve25519PublicKey)
    (message : bytes) (s : Session) (ia ea eb inner t0 : bytes)
    (our : OneTimeKey) :
  let reader := decode_one_time_key_message message in
  identity_key reader = Some ia ->
  base_key reader = Some ea ->
  one_time_key reader = Some eb ->
  olm.message reader = Some inner ->
  length ia = KEY_LENGTH -> length ea = KEY_LENGTH -> length eb = KEY_LENGTH ->
  (forall k, their_identity_key = Some k ->
             memcmp_eq (public_key k) ia KEY_LENGTH = true) ->
  ratchet_key (decode_message inner (ratchet_cipher_mac_length (ratchet s)))
  = Some t0 ->
  length t0 = KEY_LENGTH ->
  lookup_key local_account {| public_key := eb |} = Some our ->
  let loaded :=
    with_keys {| public_key := ia |} {| public_key := ea |}
              {| public_key := eb |} s in
  new_inbound_session local_account their_identity_key message s
  = returns
      (with_ratchet
         (initialise_as_bob (ratchet s)
            (curve25519_shared_secret (key our) (alice_identity_key loaded)
             ++ curve25519_shared_secret
                  (identity_keys_curve25519_key local_account)
                  (alice_base_key loaded)
             ++ curve25519_shared_secret (key our) (alice_base_key loaded))
            {| public_key := t0 |})
         loaded)
      (Some 0).
Proof.
  intros reader Hik Hbk Hotk Hin Hial Heal Hebl Hsame Ht0 Ht0l Hl.
  cbv zeta.
  assert (Hc : check_message_fields reader (non_null their_identity_key) = true).
  { apply SessionFacts.check_message_fields_spec. repeat split.
    - right. rewrite Hik. discriminate.
    - intros ik. rewrite Hik. now intros [= <-].
    - rewrite Hin. discriminate.
    - eauto.
    - eauto. }
  unfold new_inbound_session. fold reader.
  rewrite Hc, Hik, Hbk, Hotk, Hin. cbn [negb].
  assert (Hs : match their_identity_key with
               | Some k => memcmp_eq (public_key k) ia KEY_LENGTH
               | None => true
               end = true).
  { destruct their_identity_key as [k|]; [now apply Hsame|reflexivity]. }
  rewrite Hs. cbn [negb].
  rewrite (SessionFacts.load_array_whole ia Hial),
    (SessionFacts.load_array_whole ea Heal),
    (SessionFacts.load_array_whole eb Hebl).
  cbn [ratchet with_keys bob_one_time_key alice_identity_key alice_base_key].
  rewrite Ht0. apply Nat.eqb_eq in Ht0l. rewrite Ht0l. cbn [negb].
  apply Nat.eqb_eq in Ht0l.
  rewrite Hl, (SessionFacts.load_array_whole t0 Ht0l). reflexivity.
Qed.


(** X6. [new_inbound_session] succeeds on a pre-key message that carries
    32-byte identity, base and one-time keys Ia, Ea, Eb (the identity key
    being the expected one when the caller expects one), whose embedded
    message carries a 32-byte ratchet key T0, and whose one-time key the
    account knows. With Eb the pair the account holds for that key and Ib the
    identity pair of the account, the ratchet is initialised as Bob with the
    secret DH(Eb, Ia) || DH(Ib, Ea) || DH(Eb, Ea), in that order, and the
    ratchet key T0; the session stores the three keys of the message;
    [last_error] and [received_message] are what they were. *)
Theorem new_inbound_session_success (local_account : Account)
    (their_identity_key : option Curve25519PublicKey)
    (message : bytes) (s : Session) (ia ea eb inner t0 : bytes)
    (our : OneTimeKey) :
  let reader := decode_one_time_key_message message in
  identity_key reader = Some ia ->
  base_key reader = Some ea ->
  one_time_key reader = Some eb ->
  olm.message reader = Some inner ->
  length ia = KEY_LENGTH -> length ea = KEY_LENGTH -> length eb = KEY_LENGTH ->
  (forall k, their_identity_key = Some k ->
             memcmp_eq (public_key k) ia KEY_LENGTH = true) ->
  ratchet_key (decode_message inner (ratchet_cipher_mac_length (ratchet s)))
  = Some t0 ->
  length t0 = KEY_LENGTH ->
  lookup_key local_account {| public_key := eb |} = Some our ->
  let Ia := {| public_key := ia |} in
  let Ea := {| public_key := ea |} in
  let Ib := identity_keys_curve25519_key local_account in
  let Eb := key our in
  new_inbound_session local_account their_identity_key message s
  = returns
      {| ratchet :=
           initialise_as_bob (ratchet s)
             (curve25519_shared_secret Eb Ia
              ++ curve25519_shared_secret Ib Ea
              ++ curve25519_shared_secret Eb Ea)
             {| public_key := t0 |};
         last_error := last_error s;
         received_message := received_message s;
         alice_identity_key := Ia;
         alice_base_key := Ea;
         bob_one_time_key := {| public_key := eb |} |}
      (Some 0).
Proof.
  intros reader Hik Hbk Hotk Hin Hial Heal Hebl Hsame Ht0 Ht0l Hl.
  exact (new_inbound_session_accepted local_account their_identity_key message
           s ia ea eb inner t0 our Hik Hbk Hotk Hin Hial Heal Hebl Hsame Ht0
           Ht0l Hl).
Qed.

(** X7. [new_inbound_session] reads through a null pointer exactly when the
    caller supplies the expected identity key and the pre-key message has no
    identity key of its own but has its embedded message, a 32-byte base key
    and a 32-byte one-time key: [check_message_fields] accepts such a
    message, and the identity key is then loaded from it without a test. *)
Theorem new_inbound_session_null_read (local_account : Account)
    (their_identity_key : option Curve25519PublicKey)
    (message : bytes) (s : Session) :
  let reader := decode_one_time_key_message message in
  new_inbound_session local_account their_identity_key message s
  = null_pointer_read
  <->
  their_identity_key <> None
  /\ identity_key reader = None
  /\ olm.message reader <> None
  /\ has_length (base_key reader) KEY_LENGTH = true
  /\ has_length (one_time_key reader) KEY_LENGTH = true.
Proof.
  intros reader.
  pose proof (new_inbound_session_path local_account their_identity_key
                message s) as Hp.
  fold reader in Hp. split.
  - intros E. rewrite E in Hp.
    inversion Hp;
      try match goal with
          | Hl : loaded_path _ _ _ null_pointer_read |- _ => now inversion Hl
          end.
    match goal with
    | Hc : check_message_fields _ _ = true |- _ =>
      apply SessionFacts.check_message_fields_spec in Hc;
        destruct Hc as (Hh & _ & Hm & Hb & Ho)
    end.
    repeat split; auto.
    + destruct Hh as [Hh|Hh]; [now destruct their_identity_key|].
      now elim Hh.
    + now apply SessionFacts.has_length_spec.
    + now apply SessionFacts.has_length_spec.
  - intros (Ht & Hik & Hm & Hb & Ho).
    assert (Hc : check_message_fields reader (non_null their_identity_key)
                 = true).
    { apply SessionFacts.check_message_fields_spec. repeat split.
      - left. now destruct their_identity_key.
      - intros ik. rewrite Hik. discriminate.
      - exact Hm.
      - now apply SessionFacts.has_length_spec.
      - now apply SessionFacts.has_length_spec. }
    inversion Hp; congruence.
Qed.

(** X8. What a returning [new_inbound_session] leaves alone. It never writes
    [received_message]. When it fails, the ratchet is what it was and
    [last_error] is [BAD_MESSAGE_FORMAT] or [BAD_MESSAGE_KEY_ID]. When it
    does not fail, it returns 0 and [last_error] is what it was. *)
Theorem new_inbound_session_frame (local_account : Account)
    (their_identity_key : option Curve25519PublicKey)
    (message : bytes) (s s' : Session) (result : size_t) :
  new_inbound_session local_account their_identity_key message s
  = returns s' result ->
  received_message s' = received_message s
  /\ (result = None ->
      ratchet s' = ratchet s
      /\ (last_error s' = BAD_MESSAGE_FORMAT
          \/ last_error s' = BAD_MESSAGE_KEY_ID))
  /\ (result <> None -> result = Some 0 /\ last_error s' = last_error s).
Proof.
  intros E.
  pose proof (new_inbound_session_path local_account their_identity_key
                message s) as Hp.
  rewrite E in Hp.
  inversion Hp; subst;
    try match goal with
        | Hl : loaded_path _ _ _ _ |- _ => inversion Hl; subst
        end;
    cbn; repeat split; auto; congruence.
Qed.

(** X9. A session that [new_inbound_session] has created from a pre-key
    message matches that message: [matches_inbound_session], with the same
    expected identity key, returns true on it. *)
Theorem new_inbound_session_then_matches (local_account : Account)
    (their_identity_key : option Curve25519PublicKey)
    (message : bytes) (s s' : Session) :
  new_inbound_session local_account their_identity_key message s
  = returns s' (Some 0) ->
  matches_inbound_session their_identity_key message s' = (s', true).
Proof.
  intros E.
  pose proof (new_inbound_session_path local_account their_identity_key
                message s) as Hp.
  rewrite E in Hp.
  inversion Hp; subst.
  match goal with
  | Hl : loaded_path _ _ _ _ |- _ => inversion Hl; subst
  end.
  unfold matches_inbound_session.
  repeat match goal with
         | H : check_message_fields _ _ = true |- _ => rewrite H; clear H
         | H : identity_key _ = Some _ |- _ => rewrite H; clear H
         | H : base_key _ = Some _ |- _ => rewrite H; clear H
         | H : one_time_key _ = Some _ |- _ => rewrite H; clear H
         end.
  cbn [negb with_ratchet with_keys alice_identity_key alice_base_key
       bob_one_time_key public_key].
  rewrite !memcmp_eq_refl.
  destruct their_identity_key as [k|]; [|reflexivity].
  match goal with
  | Hs : forall k, Some _ = Some k -> _ |- _ => now rewrite (Hs k eq_refl)
  end.
Qed.




(** X12. What [encrypt] writes, by the history of the session. After any
    run of calls, a successful [encrypt] writes the output of the ratchet as
    it is when [received_message] was set or some [decrypt] of the run has
    succeeded; otherwise it writes the pre-key envelope of the one-time key,
    identity key and base key the session stored at its creation, around the
    output of the ratchet. *)
Theorem encrypt_framing (calls : list call) (s s' : Session)
    (plaintext random message : bytes) (message_length result : nat) :
  encrypt plaintext random message_length (run calls s)
  = (s', Some (result, message)) ->
  exists body,
    snd (ratchet_encrypt (ratchet (run calls s)) plaintext random
           (ratchet_encrypt_output_length (ratchet (run calls s))
              (length plaintext)))
    = Some body
    /\ result = length body
    /\ message =
       if received_message s || some_decrypt_succeeds calls s then body
       else encode_one_time_key_message PROTOCOL_VERSION
              (public_key (bob_one_time_key s))
              (public_key (alice_identity_key s))
              (public_key (alice_base_key s)) body.
Proof.
  pose proof (SessionFacts.run_triple calls s) as T.
  pose proof (SessionFacts.run_received_message calls s) as R.
  unfold triple in T. injection T as T1 T2 T3.
  unfold encrypt.
  destruct (Nat.ltb _ _); [discriminate|].
  destruct (ratchet_encrypt _ _ _ _) as [r' [body|]]; [|discriminate].
  cbn [with_ratchet received_message alice_identity_key alice_base_key
       bob_one_time_key snd].
  rewrite R, T1, T2, T3.
  destruct (received_message s || some_decrypt_succeeds calls s);
    intros [= <- <- <-]; now exists body.
Qed.

(** X13. Pickling then unpickling a session. [pickle] appends to what is
    before its position. Let the unpicklers of the fields read back what
    the picklers wrote for the version and for the fields of the session,
    each leaving the bytes that follow. Then unpickling the pickle of a
    session into any session returns the position after the pickle and
    gives that session the flag, the three keys and the ratchet of the
    pickled one; its [last_error] is not part of the pickle and stays what
    it was. And when the version read is not 1, [unpickle] returns [end] and
    changes nothing but [last_error], set to [UNKNOWN_PICKLE_VERSION]. *)
Theorem session_pickle_round_trip (s target : Session) (rest : bytes) :
  (forall rest,
     unpickle_uint32 (pickle_uint32 SESSION_PICKLE_VERSION ++ rest)
     = (SESSION_PICKLE_VERSION, rest)) ->
  (forall b rest,
     unpickle_bool (pickle_bool (received_message s) ++ rest) b
     = (received_message s, rest)) ->
  (forall k k0 rest,
     k = alice_identity_key s \/ k = alice_base_key s
     \/ k = bob_one_time_key s ->
     unpickle_key (pickle_key k ++ rest) k0 = (k, rest)) ->
  (forall rest,
     unpickle_ratchet (pickle_ratchet (ratchet s) ++ rest) (ratchet target)
     = (ratchet s, rest)) ->
  (forall pos, pickle pos s = pos ++ pickle [] s)
  /\ unpickle (pickle [] s ++ rest) target
     = (rest,
        {| ratchet := ratchet s;
           last_error := last_error target;
           received_message := received_message s;
           alice_identity_key := alice_identity_key s;
           alice_base_key := alice_base_key s;
           bob_one_time_key := bob_one_time_key s |})
  /\ (forall pos,
        fst (unpickle_uint32 pos) <> SESSION_PICKLE_VERSION ->
        unpickle pos target
        = ([], with_last_error UNKNOWN_PICKLE_VERSION target)).
Proof.
  intros Hv Hb Hk Hr. split; [|split].
  - intros pos. unfold pickle. cbn [app]. now rewrite !app_assoc.
  - unfold pickle, unpickle. cbn [app]. rewrite <- !app_assoc.
    rewrite Hv, Z.eqb_refl. cbn [negb].
    rewrite Hb.
    cbn [with_received_message alice_identity_key alice_base_key
         bob_one_time_key ratchet].
    rewrite Hk by auto.
    cbn [with_keys alice_identity_key alice_base_key bob_one_time_key ratchet].
    rewrite Hk by auto.
    cbn [with_keys alice_identity_key alice_base_key bob_one_time_key ratchet].
    rewrite Hk by auto.
    cbn [with_keys alice_identity_key alice_base_key bob_one_time_key ratchet].
    rewrite Hr. reflexivity.
  - intros pos Hne. unfold unpickle.
    destruct (unpickle_uint32 pos) as [v pos']. cbn [fst] in Hne.
    apply Z.eqb_neq in Hne. now rewrite Hne.
Qed.

End Facts.

(** ** Runs of the code on the sample instance *)

Lemma new_inbound_session_success_witness :
  new_inbound_session (X := Sample.session) Sample.bob_account None
    Sample.pre_key_message Sample.constructed
  = returns Sample.bob_session (Some 0).
Proof.
  rewrite (new_inbound_session_success (X := Sample.session)
             Sample.bob_account None Sample.pre_key_message Sample.constructed
             (repeat x5f 32) (repeat x54 32) (repeat x5b 32)
             (skipn 105 Sample.pre_key_message) (repeat x04 32)
             Sample.bob_one_time_key);
    by_running.
Defined.

Lemma new_inbound_session_null_read_witness :
  new_inbound_session (X := Sample.session) Sample.bob_account
    (Some Sample.no_key) Sample.pre_key_message_no_identity Sample.bob_earlier
  = null_pointer_read
  /\ matches_inbound_session (X := Sample.session) (Some Sample.no_key)
       Sample.pre_key_message_no_identity Sample.bob_earlier
     = (Sample.bob_earlier, false).
Proof.
  split; [|by_running].
  apply (new_inbound_session_null_read (X := Sample.session)
           Sample.bob_account (Some Sample.no_key)
           Sample.pre_key_message_no_identity Sample.bob_earlier).
  vm_compute. repeat split; discriminate.
Defined.

Lemma new_inbound_session_frame_witness :
  let s' :=
    with_last_error BAD_MESSAGE_KEY_ID
      (with_keys {| public_key := repeat x5f 32 |}
                 {| public_key := repeat x54 32 |}
                 {| public_key := repeat x77 32 |} Sample.bob_earlier) in
  new_inbound_session (X := Sample.session) Sample.bob_account None
    Sample.pre_key_message_unknown_key Sample.bob_earlier
  = returns s' None
  /\ received_message s' = received_message Sample.bob_earlier
  /\ ratchet s' = ratchet Sample.bob_earlier.
Proof.
  intros s'.
  assert (E : new_inbound_session (X := Sample.session) Sample.bob_account
                None Sample.pre_key_message_unknown_key Sample.bob_earlier
              = returns s' None) by by_running.
  destruct (new_inbound_session_frame (X := Sample.session)
              Sample.bob_account None Sample.pre_key_message_unknown_key
              Sample.bob_earlier s' None E) as (R & F & _).
  split; [exact E|]. split; [exact R|]. now apply F.
Defined.

Lemma new_inbound_session_then_matches_witness :
  matches_inbound_session (X := Sample.session) None Sample.pre_key_message
    Sample.bob_session
  = (Sample.bob_session, true).
Proof.
  apply (new_inbound_session_then_matches (X := Sample.session)
           Sample.bob_account None Sample.pre_key_message Sample.constructed).
  by_running.
Defined.




Lemma encrypt_framing_witness :
  let answered :=
    run (X := Sample.session)
        [call_decrypt PRE_KEY Sample.pre_key_message 100] Sample.bob_session in
  exists s' result message,
    encrypt (X := Sample.session) Sample.plaintext_5 [] 200 answered
    = (s', Some (result, message))
    /\ Some message
       = snd (Sample.toy_ratchet_encrypt (ratchet answered) Sample.plaintext_5
                [] 46)
    /\ encrypt_message_type (X := Sample.session) Sample.bob_session
       = (Sample.bob_session, PRE_KEY).
Proof.
  intros answered.
  destruct (encrypt (X := Sample.session) Sample.plaintext_5 [] 200 answered)
    as [s' [[result message]|]] eqn:E.
  2:{ vm_compute in E. discriminate. }
  exists s', result, message. split; [reflexivity|]. split; [|by_running].
  destruct (encrypt_framing (X := Sample.session)
              [call_decrypt PRE_KEY Sample.pre_key_message 100]
              Sample.bob_session s' Sample.plaintext_5 [] message 200 result E)
    as (body & B & _ & M).
  rewrite M. vm_compute in B. vm_compute. exact (eq_sym B).
Defined.

Lemma session_pickle_round_trip_witness :
  unpickle (P := Sample.session_pickle)
    (pickle (P := Sample.session_pickle) [] Sample.bob_session ++ [x99])
    Sample.constructed
  = ([x99], Sample.bob_session).
Proof.
  destruct (session_pickle_round_trip (P := Sample.session_pickle)
              Sample.bob_session Sample.constructed [x99]) as (_ & U & _).
  - intros rest. vm_compute. reflexivity.
  - intros b rest. vm_compute. reflexivity.
  - intros k k0 rest [->|[->| ->]]; vm_compute; reflexivity.
  - intros rest. vm_compute. reflexivity.
  - rewrite U. by_running.
Defined.

End SessionMore.
